(** * Incremental anomaly-detection worker: shallow embedding and properties

    Embedding of [worker_procesamiento.py] (the watermark-driven worker),
    of the pivot in [detect_from_sql.py] and of the melt in
    [write_training_data_to_sql.py].

    Conventions of the embedding:
    - a timestamp is an integer number of microseconds ([Z]);
    - a float64 is [NaN], an infinity, or a finite value carried as a
      rational: only comparisons and null tests are performed on the
      values by the code, no arithmetic;
    - a Python exception is the [Raise] branch of [outcome];
    - the SQL store, the detector and the result sink are external:
      their answers during one cycle are the fields of [cycle_env]. *)

From Stdlib Require Import ZArith QArith Qround List String Bool.
From Stdlib Require Import Permutation Sorted OrderedTypeEx Lia.
Import ListNotations.

Local Open Scope Z_scope.
Local Open Scope string_scope.
Local Open Scope list_scope.

(* ================================================================== *)
(** ** Exceptions *)

Inductive exn : Type :=
| KeyError
| TypeError
| ValueError
| SQLError.

Inductive outcome (A : Type) : Type :=
| Ok (a : A)
| Raise (e : exn).

Arguments Ok {A} a.
Arguments Raise {A} e.

Definition bind {A B : Type} (m : outcome A) (k : A -> outcome B) : outcome B :=
  match m with
  | Ok a => k a
  | Raise e => Raise e
  end.

Declare Scope outcome_scope.
Delimit Scope outcome_scope with outcome.
Notation "x <- m ;; k" := (bind m (fun x => k))
  (at level 61, m at next level, right associativity) : outcome_scope.
Local Open Scope outcome_scope.

(* ================================================================== *)
(** ** Numeric cells *)

Inductive float64 : Type :=
| NaN
| NegInf
| PosInf
| Fin (q : Q).

Definition isna (f : float64) : bool :=
  match f with NaN => true | _ => false end.

Definition notna (f : float64) : bool := negb (isna f).

Definition isinf (f : float64) : bool :=
  match f with NegInf | PosInf => true | _ => false end.

(** [Series.replace([np.inf, -np.inf], np.nan)] on one cell. *)
Definition replace_inf (f : float64) : float64 :=
  if isinf f then NaN else f.

(** [Series.fillna(0)] on one cell. *)
Definition fillna0 (f : float64) : float64 :=
  match f with NaN => Fin 0 | _ => f end.

(** [Series.clip(lower, upper)] on one cell: a cell below [lower] becomes
    [lower], a cell above [upper] becomes [upper], a null stays null. *)
Definition clip (lower upper : Q) (f : float64) : float64 :=
  match f with
  | NaN => NaN
  | NegInf => Fin lower
  | PosInf => Fin upper
  | Fin q =>
      if negb (Qle_bool lower q) then Fin lower
      else if negb (Qle_bool q upper) then Fin upper
      else Fin q
  end.

(** The literal [999.99] of the source. *)
Definition clip_upper : Q := 99999 # 100.
Definition clip_lower : Q := 0.

(** Truncation toward zero, as [int(x)] does on a finite float. *)
Definition Qtrunc (q : Q) : Z :=
  if Qle_bool 0 q then Qfloor q else Qceiling q.

(* ================================================================== *)
(** ** Data frames of the detector's output

    A column carries its dtype.  The detector's schema uses [BoolCol] for
    the three flags, [FloatCol] for the numeric fields, [TimeCol] for
    [ds] and [ObjectCol] for [variable] and [source_file]; [IntCol] is
    what [astype(int)] produces. *)

Inductive column : Type :=
| BoolCol (bs : list bool)
| IntCol (zs : list Z)
| FloatCol (fs : list float64)
| TimeCol (ts : list Z)
| ObjectCol (os : list (option string)).

Definition col_len (c : column) : nat :=
  match c with
  | BoolCol l => List.length l
  | IntCol l => List.length l
  | FloatCol l => List.length l
  | TimeCol l => List.length l
  | ObjectCol l => List.length l
  end.

(** Columns in frame order, keyed by label. *)
Definition DataFrame : Type := list (string * column).

Definition labels (df : DataFrame) : list string := map fst df.

(** [col in df.columns] *)
Definition has_col (col : string) (df : DataFrame) : bool :=
  existsb (String.eqb col) (labels df).

(** [df[col]] (the first column of that label); [None] is the [KeyError]. *)
Fixpoint get_col (col : string) (df : DataFrame) : option column :=
  match df with
  | [] => None
  | (l, c) :: rest => if String.eqb col l then Some c else get_col col rest
  end.

(** [df[col] = c] on a label that may or may not exist: an existing column
    is replaced in place, a new one is appended. *)
Fixpoint set_col (col : string) (c : column) (df : DataFrame) : DataFrame :=
  match df with
  | [] => [(col, c)]
  | (l, c0) :: rest =>
      if String.eqb col l then (l, c) :: rest
      else (l, c0) :: set_col col c rest
  end.

(** [len(df)] *)
Definition len (df : DataFrame) : nat :=
  match df with
  | [] => O
  | (_, c) :: _ => col_len c
  end.

Definition b2z (b : bool) : Z := if b then 1 else 0.

Definition isfinite (f : float64) : bool :=
  match f with Fin _ => true | _ => false end.

Definition float_to_int (f : float64) : Z :=
  match f with Fin q => Qtrunc q | _ => 0 end.

(** [Series.astype(int)].  A bool column becomes 0/1, an int column is
    unchanged, a float column is truncated and raises on a null or an
    infinity, a datetime column gives its integer representation, a
    column of text labels raises. *)
Definition astype_int (c : column) : outcome column :=
  match c with
  | BoolCol bs => Ok (IntCol (map b2z bs))
  | IntCol zs => Ok (IntCol zs)
  | FloatCol fs =>
      if forallb isfinite fs then Ok (IntCol (map float_to_int fs))
      else Raise ValueError
  | TimeCol ts => Ok (IntCol (map (fun t => t * 1000) ts))
  | ObjectCol _ => Raise ValueError
  end.

(** [Series.fillna(0).clip(lower=0, upper=999.99)].  An integer column is
    compared as numbers and comes out as floats; bools lie inside the
    bounds; datetimes and text cannot be compared with a float. *)
Definition fillna_clip (c : column) : outcome column :=
  match c with
  | FloatCol fs => Ok (FloatCol (map (fun f => clip clip_lower clip_upper (fillna0 f)) fs))
  | IntCol zs => Ok (FloatCol (map (fun z => clip clip_lower clip_upper (Fin (inject_Z z))) zs))
  | BoolCol bs => Ok (BoolCol bs)
  | TimeCol _ => Raise TypeError
  | ObjectCol _ => Raise TypeError
  end.

(** [Series.replace([np.inf, -np.inf], np.nan)]: only a float column
    holds infinities. *)
Definition replace_inf_col (c : column) : column :=
  match c with
  | FloatCol fs => FloatCol (map replace_inf fs)
  | _ => c
  end.

(** [if col in results.columns: results[col] = f(results[col])] *)
Definition update_col (col : string) (f : column -> outcome column)
    (results : DataFrame) : outcome DataFrame :=
  match get_col col results with
  | Some c => c' <- f c ;; Ok (set_col col c' results)
  | None => Ok results
  end.

Definition bool_cols : list string :=
  ["outside_interval"; "high_residual"; "is_anomaly"].

(** Lines 200-203: the loop over [bool_cols]. *)
Fixpoint convert_bool_cols (cols : list string) (results : DataFrame)
  : outcome DataFrame :=
  match cols with
  | [] => Ok results
  | col :: rest =>
      r <- update_col col astype_int results ;;
      convert_bool_cols rest r
  end.

(** Lines 199-211 of [process_new_anomalies]: the result sanitizer. *)
Definition sanitize (results : DataFrame) : outcome DataFrame :=
  r1 <- convert_bool_cols bool_cols results ;;
  r2 <- update_col "anomaly_score" fillna_clip r1 ;;
  update_col "prediction_error_pct"
    (fun c => fillna_clip (replace_inf_col c)) r2.

Definition columns_to_write : list string :=
  ["ds"; "y"; "yhat"; "yhat_lower"; "yhat_upper"; "residual";
   "outside_interval"; "high_residual"; "is_anomaly"; "anomaly_score";
   "variable"; "prediction_error_pct"; "source_file"].

(** Lines 220-221: [results[available_cols].copy()]. *)
Definition select_columns (results : DataFrame) : DataFrame :=
  flat_map
    (fun col => match get_col col results with
                | Some c => [(col, c)]
                | None => []
                end)
    columns_to_write.

(* ================================================================== *)
(** ** Long-form events and the wide frame *)

(** One row of the input table: [datetime, variable_name, value,
    source_file].  A SQL NULL [value] is [NaN]; a NULL [source_file] is
    [None]. *)
Record event : Type := mkEvent {
  datetime : Z;
  variable_name : string;
  value : float64;
  source_file : option string
}.

Definition key : Type := (Z * string)%type.

Definition event_key (e : event) : key := (datetime e, variable_name e).

Definition key_eqb (k1 k2 : key) : bool :=
  (fst k1 =? fst k2)%Z && (snd k1 =? snd k2)%string.

Definition key_leb (k1 k2 : key) : bool :=
  (fst k1 <? fst k2)%Z || ((fst k1 =? fst k2)%Z && String.leb (snd k1) (snd k2)).

Definition has_key (k : key) (e : event) : bool := key_eqb (event_key e) k.

Section Sorting.
Context {A : Type} (le : A -> A -> bool).

Fixpoint insert_sorted (x : A) (l : list A) : list A :=
  match l with
  | [] => [x]
  | y :: rest => if le x y then x :: l else y :: insert_sorted x rest
  end.

(** Ascending sort (stable insertion sort). *)
Fixpoint sort_values (l : list A) : list A :=
  match l with
  | [] => []
  | x :: rest => insert_sorted x (sort_values rest)
  end.
End Sorting.

Definition key_dec : forall k1 k2 : key, {k1 = k2} + {k1 <> k2}.
Proof. decide equality; [apply string_dec | apply Z.eq_dec]. Defined.

(** The frame after [reset_index] and the rename of the index to
    [DATETIME]: the index column and one float column per variable, each
    as long as the index.  The variable columns are kept apart from the
    [DATETIME] column. *)
Record WideFrame : Type := mkWide {
  DATETIME : list Z;
  variables : list (string * list float64)
}.

(** [GroupBy.first]: the first entry of the group that is not null, null
    when the group has none. *)
Fixpoint first_valid (l : list float64) : float64 :=
  match l with
  | [] => NaN
  | f :: rest => if notna f then f else first_valid rest
  end.

(** The values of one [(datetime, variable_name)] group, in input order. *)
Definition group_values (df_long : list event) (k : key) : list float64 :=
  map value (filter (has_key k) df_long).

(** [data.groupby(['datetime', 'variable_name']).agg('first')]: one entry
    per distinct key, keys ascending. *)
Definition groupby_first (df_long : list event) : list (key * float64) :=
  map (fun k => (k, first_valid (group_values df_long k)))
      (sort_values key_leb (nodup key_dec (map event_key df_long))).

(** [agged.dropna(how='all')]: a group whose aggregate is null is removed. *)
Definition dropna_rows (agged : list (key * float64)) : list (key * float64) :=
  filter (fun r => notna (snd r)) agged.

Definition agg_lookup (agged : list (key * float64)) (k : key) : float64 :=
  match find (fun r => key_eqb (fst r) k) agged with
  | Some r => snd r
  | None => NaN
  end.

(** [unstack] of the variable level, then [sort_index(axis=1)]: rows are
    the distinct datetimes, columns the distinct variables, both
    ascending; a missing combination is a null hole. *)
Definition unstack (agged : list (key * float64)) : WideFrame :=
  let index := sort_values Z.leb (nodup Z.eq_dec (map (fun r => fst (fst r)) agged)) in
  let cols := sort_values String.leb (nodup string_dec (map (fun r => snd (fst r)) agged)) in
  {| DATETIME := index;
     variables := map (fun v => (v, map (fun t => agg_lookup agged (t, v)) index)) cols |}.

(** [table.dropna(how='all', axis=1)]: a column holding only nulls is
    removed. *)
Definition dropna_columns (w : WideFrame) : WideFrame :=
  {| DATETIME := DATETIME w;
     variables := filter (fun c => existsb notna (snd c)) (variables w) |}.

(** [convert_long_to_wide]: [pivot_table(index='datetime',
    columns='variable_name', values='value', aggfunc='first')] with the
    default [dropna=True], then [reset_index] and the rename. *)
Definition convert_long_to_wide (df_long : list event) : WideFrame :=
  dropna_columns (unstack (dropna_rows (groupby_first df_long))).

(** [df_wide.columns] *)
Definition wide_columns (w : WideFrame) : list string :=
  "DATETIME" :: map fst (variables w).

(** [df_wide['DATETIME'].nunique()] *)
Definition nunique_datetime (w : WideFrame) : nat :=
  List.length (nodup Z.eq_dec (DATETIME w)).

Fixpoint lookup_row (index : list Z) (col : list float64) (t : Z) : option float64 :=
  match index, col with
  | i :: index', c :: col' => if (i =? t)%Z then Some c else lookup_row index' col' t
  | _, _ => None
  end.

Fixpoint get_variable (v : string) (vars : list (string * list float64))
  : option (list float64) :=
  match vars with
  | [] => None
  | (l, c) :: rest => if String.eqb v l then Some c else get_variable v rest
  end.

(** The cell of row [t] and column [v]; [None] when the frame has no such
    row or no such column. *)
Definition wide_cell (w : WideFrame) (t : Z) (v : string) : option float64 :=
  match get_variable v (variables w) with
  | Some col => lookup_row (DATETIME w) col t
  | None => None
  end.


(** [df.melt(id_vars=[datetime_col], value_vars=variable_cols)]: column
    by column, each column top to bottom. *)
Definition melt (w : WideFrame) : list (Z * string * float64) :=
  flat_map (fun c => map (fun tx => (fst tx, fst c, snd tx))
                         (combine (DATETIME w) (snd c)))
           (variables w).

(** [transform_data_to_long_format(df, 'DATETIME', source_file)]: melt,
    attach [source_file] when it is given and not empty, drop the rows
    whose value is null. *)
Definition transform_data_to_long_format (df : WideFrame)
    (src : option string) : list event :=
  let tag := match src with
             | Some s => if String.eqb s "" then None else Some s
             | None => None
             end in
  filter (fun e => notna (value e))
         (map (fun r => mkEvent (fst (fst r)) (snd (fst r)) (snd r) tag) (melt df)).



(* ================================================================== *)
(** ** External collaborators *)

(** What [sql_conn.execute_query] does at one call on the input table:
    it evaluates the query on the table as it is at that moment, returns
    [None], or raises. *)
Inductive query_answer : Type :=
| Table (tbl : list event)
| ReturnsNone
| QueryRaises.

(** The detector: the keys of [detector.models] in dictionary order and
    [detect_anomalies_multiple(df, variables, 'DATETIME', True)], which
    returns a frame, returns [None], or raises. *)
Record ProphetAnomalyDetector : Type := mkDetector {
  models : list string;
  detect_anomalies_multiple : WideFrame -> list string -> outcome (option DataFrame)
}.

(** The answers of the store during one cycle, one field per call, in the
    order the calls are made. *)
Record cycle_env : Type := mkEnv {
  input_at_check : query_answer;      (* check_and_process, line 319 *)
  input_at_process : query_answer;    (* process_new_anomalies, line 154 *)
  write_dataframe : DataFrame -> outcome bool;               (* line 224 *)
  input_at_requery : query_answer     (* check_and_process, line 334 *)
}.

Inductive message : Type :=
| DataFound (rows : nat)
| DataConverted (datetimes variables_ : nat)
| NoCommonVariables (n_models n_variables : nat)
| VariablesToAnalyse (n_available n_models : nat)
| Processed (n_datetimes n_anomalies total : Z)
| NoNewData
| Statistics (processed anomalies : Z)
| Waiting
| StoppedByUser
| ConnectionClosed
| InitFailed.

Inductive effect : Type :=
| Printed (m : message)
| LoggedError (e : exn)
| Wrote (batch : DataFrame) (status : outcome bool)
| Disconnected.

(* ================================================================== *)
(** ** Polling *)

(** [since_datetime.strftime('%Y-%m-%d %H:%M:%S')]: the fraction of a
    second is dropped. *)
Definition strftime_seconds (t : Z) : Z := t - t mod 1000000.

Definition event_leb (e1 e2 : event) : bool :=
  key_leb (event_key e1) (event_key e2).

(** The query of [get_new_data_from_sql] on a table:
    [WHERE datetime > since ORDER BY datetime, variable_name]; rows that
    tie keep their table order. *)
Definition select_new_rows (tbl : list event) (since : Z) : list event :=
  sort_values event_leb
    (filter (fun e => (datetime e >? strftime_seconds since)%Z) tbl).

(** [get_new_data_from_sql]: [None] when the query returns nothing. *)
Definition get_new_data_from_sql (ans : query_answer) (since : Z)
  : outcome (option (list event)) :=
  match ans with
  | Table tbl =>
      match select_new_rows tbl since with
      | [] => Ok None
      | rows => Ok (Some rows)
      end
  | ReturnsNone => Ok None
  | QueryRaises => Raise SQLError
  end.

(** [SELECT MAX(datetime) FROM input_table]: NULL on an empty table. *)
Fixpoint max_datetime (tbl : list event) : option Z :=
  match tbl with
  | [] => None
  | e :: rest =>
      match max_datetime rest with
      | Some m => Some (Z.max (datetime e) m)
      | None => Some (datetime e)
      end
  end.

(* ================================================================== *)
(** ** One processing pass: [process_new_anomalies] *)

(** Line 169: the model variables that are columns of the wide frame, in
    the order of [detector.models]. *)
Definition available_vars (detector : ProphetAnomalyDetector) (df_wide : WideFrame)
  : list string :=
  filter (fun v => existsb (String.eqb v) (wide_columns df_wide)) (models detector).

Fixpoint first_some {A : Type} (l : list (option A)) : option A :=
  match l with
  | [] => None
  | Some a :: _ => Some a
  | None :: rest => first_some rest
  end.

(** [source_file_map.get((ds, variable), 'unknown')] where the map is
    [df_long.groupby(['datetime', 'variable_name'])['source_file'].first()]. *)
Definition source_file_of (df_long : list event) (k : key) : option string :=
  match filter (has_key k) df_long with
  | [] => Some "unknown"
  | grp => first_some (map source_file grp)
  end.

Fixpoint row_sources (df_long : list event) (ds : list Z) (vs : list (option string))
  : list (option string) :=
  match ds, vs with
  | t :: ds', Some v :: vs' => source_file_of df_long (t, v) :: row_sources df_long ds' vs'
  | _ :: ds', None :: vs' => Some "unknown" :: row_sources df_long ds' vs'
  | _, _ => []
  end.

(** Lines 192-197: a [source_file] column is added when the detector
    gave none; reading [ds] or [variable] of a row fails when the
    column is missing. *)
Definition add_source_file (df_long : list event) (results : DataFrame)
  : outcome DataFrame :=
  if has_col "source_file" results then Ok results
  else
    match get_col "ds" results, get_col "variable" results with
    | Some (TimeCol ds), Some (ObjectCol vs) =>
        Ok (set_col "source_file" (ObjectCol (row_sources df_long ds vs)) results)
    | Some _, Some _ =>
        Ok (set_col "source_file"
              (ObjectCol (repeat (Some "unknown") (len results))) results)
    | _, _ => Raise KeyError
    end.

(** [results['is_anomaly'].sum()], on the column as converted at lines
    200-203. *)
Definition sum_is_anomaly (results : DataFrame) : outcome Z :=
  match get_col "is_anomaly" results with
  | Some (IntCol zs) => Ok (fold_right Z.add 0 zs)
  | Some (BoolCol bs) => Ok (fold_right Z.add 0 (map b2z bs))
  | Some _ => Raise TypeError
  | None => Raise KeyError
  end.

(** The body of the [try] block, lines 181-234. *)
Definition detect_and_write (env : cycle_env) (detector : ProphetAnomalyDetector)
    (df_long : list event) (df_wide : WideFrame) (vars : list string)
    (unique_datetimes : Z) : list effect * outcome (Z * Z) :=
  match detect_anomalies_multiple detector df_wide vars with
  | Raise e => ([], Raise e)
  | Ok None => ([], Ok (0, 0))
  | Ok (Some results) =>
      if Nat.eqb (len results) 0 then ([], Ok (0, 0))
      else
        match (r <- add_source_file df_long results ;; sanitize r) with
        | Raise e => ([], Raise e)
        | Ok results' =>
            let results_to_write := select_columns results' in
            let success := write_dataframe env results_to_write in
            ([Wrote results_to_write success],
             match success with
             | Raise e => Raise e
             | Ok true =>
                 n_anomalies <- sum_is_anomaly results' ;;
                 Ok (unique_datetimes, n_anomalies)
             | Ok false => Ok (0, 0)
             end)
        end
  end.

(** [process_new_anomalies]: returns [(n_datetimes, n_anomalies)]; an
    exception of the [try] block is logged and gives [(0, 0)], one raised
    before it propagates. *)
Definition process_new_anomalies (env : cycle_env)
    (detector : ProphetAnomalyDetector) (since_datetime : Z)
  : list effect * outcome (Z * Z) :=
  match get_new_data_from_sql (input_at_process env) since_datetime with
  | Raise e => ([], Raise e)
  | Ok None => ([], Ok (0, 0))
  | Ok (Some df_long) =>
      let df_wide := convert_long_to_wide df_long in
      let unique_datetimes := Z.of_nat (nunique_datetime df_wide) in
      let log1 := [Printed (DataFound (List.length df_long));
                   Printed (DataConverted (nunique_datetime df_wide)
                                          (List.length (wide_columns df_wide) - 1)%nat)] in
      match available_vars detector df_wide with
      | [] =>
          (log1 ++ [Printed (NoCommonVariables (List.length (models detector))
                                               (List.length (wide_columns df_wide) - 1)%nat)],
           Ok (0, 0))
      | vars =>
          let log2 := log1 ++ [Printed (VariablesToAnalyse (List.length vars)
                                          (List.length (models detector)))] in
          match detect_and_write env detector df_long df_wide vars unique_datetimes with
          | (log3, Raise e) => (log2 ++ log3 ++ [LoggedError e], Ok (0, 0))
          | (log3, Ok r) => (log2 ++ log3, Ok r)
          end
      end
  end.

(* ================================================================== *)
(** ** The worker *)

Inductive connection : Type :=
| Created
| Connected
| Closed.

Record worker : Type := mkWorker {
  sql_conn : option connection;
  detector : ProphetAnomalyDetector;
  last_processed_datetime : Z;
  total_processed : Z;
  total_anomalies : Z;
  iterations : Z
}.

(** Lines 337-338: [if new_last > self.last_processed_datetime:
    self.last_processed_datetime = new_last]. *)
Definition advance (current candidate : Z) : Z :=
  if (candidate >? current)%Z then candidate else current.

(** Lines 333-338: the watermark after the re-query of the input table. *)
Definition requery_watermark (ans : query_answer) (current : Z) : outcome Z :=
  match ans with
  | Table tbl =>
      match max_datetime tbl with
      | Some new_last => Ok (advance current new_last)
      | None => Ok current
      end
  | ReturnsNone => Ok current
  | QueryRaises => Raise SQLError
  end.

Definition set_progress (w : worker) (wm : Z) (n_datetimes n_anomalies : Z) : worker :=
  {| sql_conn := sql_conn w;
     detector := detector w;
     last_processed_datetime := wm;
     total_processed := total_processed w + n_datetimes;
     total_anomalies := total_anomalies w + n_anomalies;
     iterations := iterations w |}.

(** [check_and_process]: one cycle.  Returns the worker after the cycle,
    what the cycle did, and whether data were processed. *)
Definition check_and_process (w : worker) (env : cycle_env)
  : worker * list effect * bool :=
  match get_new_data_from_sql (input_at_check env) (last_processed_datetime w) with
  | Raise e => (w, [LoggedError e], false)
  | Ok None => (w, [], false)
  | Ok (Some _) =>
      match process_new_anomalies env (detector w) (last_processed_datetime w) with
      | (log, Raise e) => (w, log ++ [LoggedError e], false)
      | (log, Ok (n_datetimes, n_anomalies)) =>
          if (n_datetimes >? 0)%Z then
            match requery_watermark (input_at_requery env) (last_processed_datetime w) with
            | Raise e => (w, log ++ [LoggedError e], false)
            | Ok wm =>
                let w' := set_progress w wm n_datetimes n_anomalies in
                (w', log ++ [Printed (Processed n_datetimes n_anomalies (total_anomalies w'))],
                 true)
            end
          else (w, log, false)
      end
  end.

(* ================================================================== *)
(** ** Start-up and the run loop *)

(** The answers of the environment to [initialize]. *)
Record init_env : Type := mkInit {
  models_on_disk : bool;     (* the models directory holds model files *)
  connect : bool;            (* [sql_conn.connect()] *)
  bootstrap : outcome ProphetAnomalyDetector;
                             (* [create_anomalies_table] and [load_models] *)
  last_ds : outcome (option Z);  (* [get_last_processed_datetime] *)
  now : Z                    (* [datetime.now()] *)
}.

Inductive init_result : Type :=
| InitOk (w : worker)
| InitFalse (conn : option connection).

Definition hours_24 : Z := 24 * 3600 * 1000000.

(** [initialize]: [InitOk] is the [True] return, with the worker's
    fields; [InitFalse] is the [False] return, with [self.sql_conn]. *)
Definition initialize (env : init_env) : init_result :=
  if negb (models_on_disk env) then InitFalse None
  else if negb (connect env) then InitFalse (Some Created)
  else
    match bootstrap env with
    | Raise _ => InitFalse (Some Connected)
    | Ok det =>
        match last_ds env with
        | Raise _ => InitFalse (Some Connected)
        | Ok last =>
            InitOk {| sql_conn := Some Connected;
                      detector := det;
                      last_processed_datetime :=
                        match last with
                        | Some t => t
                        | None => now env - hours_24
                        end;
                      total_processed := 0;
                      total_anomalies := 0;
                      iterations := 0 |}
        end
    end.

(** What can leave the [while True] loop. *)
Inductive signal : Type :=
| KeyboardInterrupt
| OtherException.

(** One turn of the loop as the environment drives it: the turn runs to
    the end of its sleep, or a signal is raised during the sleep, or a
    signal is raised before the check is made. *)
Inductive iteration : Type :=
| Completes (env : cycle_env)
| RaisedAsleep (env : cycle_env) (s : signal)
| RaisedBeforeCheck (s : signal).

Definition count_iteration (w : worker) : worker :=
  {| sql_conn := sql_conn w;
     detector := detector w;
     last_processed_datetime := last_processed_datetime w;
     total_processed := total_processed w;
     total_anomalies := total_anomalies w;
     iterations := iterations w + 1 |}.

(** Lines 371-390: the body of the loop up to the sleep. *)
Definition loop_body (w : worker) (env : cycle_env) : worker * list effect :=
  let '(w', log, processed) := check_and_process (count_iteration w) env in
  (w',
   log ++ (if processed then [] else [Printed NoNewData])
       ++ (if (iterations w' mod 10 =? 0)%Z
           then [Printed (Statistics (total_processed w') (total_anomalies w'))]
           else [])
       ++ [Printed Waiting]).

(** The loop on a finite script of turns: [None] when the script ends
    with the loop still running. *)
Fixpoint loop (w : worker) (script : list iteration)
  : worker * list effect * option signal :=
  match script with
  | [] => (w, [], None)
  | Completes env :: rest =>
      let '(w1, log1) := loop_body w env in
      let '(w2, log2, s) := loop w1 rest in
      (w2, log1 ++ log2, s)
  | RaisedAsleep env s :: _ =>
      let '(w1, log1) := loop_body w env in
      (w1, log1, Some s)
  | RaisedBeforeCheck s :: _ => (count_iteration w, [], Some s)
  end.

Definition close_connection (w : worker) : worker :=
  {| sql_conn := Some Closed;
     detector := detector w;
     last_processed_datetime := last_processed_datetime w;
     total_processed := total_processed w;
     total_anomalies := total_anomalies w;
     iterations := iterations w |}.

(** Lines 402-406: [finally: if self.sql_conn: self.sql_conn.disconnect()]. *)
Definition finally_clause (w : worker) : worker * list effect :=
  match sql_conn w with
  | Some _ => (close_connection w, [Disconnected; Printed ConnectionClosed])
  | None => (w, [])
  end.

Inductive exit_status : Type :=
| NotStarted         (* [initialize] returned [False] *)
| StillRunning       (* the script ended inside the loop *)
| ReturnedAfterInterrupt
| ExceptionPropagated.

Record run_result : Type := mkRun {
  final_conn : option connection;
  final_worker : option worker;
  trace : list effect;
  status : exit_status
}.

(** [run] *)
Definition run (init : init_env) (script : list iteration) : run_result :=
  match initialize init with
  | InitFalse conn =>
      {| final_conn := conn; final_worker := None;
         trace := [Printed InitFailed]; status := NotStarted |}
  | InitOk w0 =>
      match loop w0 script with
      | (w1, log, None) =>
          {| final_conn := sql_conn w1; final_worker := Some w1;
             trace := log; status := StillRunning |}
      | (w1, log, Some s) =>
          let handler := match s with
                         | KeyboardInterrupt => [Printed StoppedByUser]
                         | OtherException => []
                         end in
          let '(w2, log_finally) := finally_clause w1 in
          {| final_conn := sql_conn w2; final_worker := Some w2;
             trace := log ++ handler ++ log_finally;
             status := match s with
                       | KeyboardInterrupt => ReturnedAfterInterrupt
                       | OtherException => ExceptionPropagated
                       end |}
      end
  end.

(** A turn in which a signal is raised. *)
Definition raises (it : iteration) : bool :=
  match it with
  | Completes _ => false
  | _ => true
  end.

(** The number of turns of a script that the loop starts: the turns up to
    and including the first one in which a signal is raised. *)
Fixpoint turns_started (script : list iteration) : nat :=
  match script with
  | [] => O
  | Completes _ :: rest => S (turns_started rest)
  | _ :: _ => 1%nat
  end.

(** The worker after a sequence of complete cycles. *)
Fixpoint run_cycles (w : worker) (envs : list cycle_env) : worker :=
  match envs with
  | [] => w
  | env :: rest => run_cycles (fst (fst (check_and_process w env))) rest
  end.

(* ================================================================== *)
(** ** The sanitizer as a table of steps

    [sanitize] applies five guarded column updates one after the other.
    The table below lists them; [sanitize_as_steps] shows that running
    the table is [sanitize]. *)

Definition step : Type := (string * (column -> outcome column))%type.

Fixpoint run_steps (steps : list step) (results : DataFrame) : outcome DataFrame :=
  match steps with
  | [] => Ok results
  | (col, f) :: rest => r <- update_col col f results ;; run_steps rest r
  end.

Definition sanitize_steps : list step :=
  [("outside_interval", astype_int);
   ("high_residual", astype_int);
   ("is_anomaly", astype_int);
   ("anomaly_score", fillna_clip);
   ("prediction_error_pct", fun c => fillna_clip (replace_inf_col c))].

Fixpoint step_for (col : string) (steps : list step) : option (column -> outcome column) :=
  match steps with
  | [] => None
  | (l, f) :: rest => if String.eqb col l then Some f else step_for col rest
  end.

Definition without_step (col : string) (steps : list step) : list step :=
  filter (fun s => negb (String.eqb col (fst s))) steps.

(** The columns the sanitizer touches. *)
Definition sanitized_cols : list string := map fst sanitize_steps.

(** A cell inside the storage range [[0, 999.99]]. *)
Definition in_range (f : float64) : bool :=
  match f with
  | Fin q => Qle_bool clip_lower q && Qle_bool q clip_upper
  | _ => false
  end.

(** The dtypes of the detector's output: present flags are bool columns,
    present scores are float columns. *)
Definition is_bool_col (c : column) : bool :=
  match c with BoolCol _ => true | _ => false end.

Definition is_float_col (c : column) : bool :=
  match c with FloatCol _ => true | _ => false end.

Definition detector_schema (results : DataFrame) : Prop :=
  (forall col c, In col bool_cols -> get_col col results = Some c -> is_bool_col c = true) /\
  (forall col c, In col ["anomaly_score"; "prediction_error_pct"] ->
                 get_col col results = Some c -> is_float_col c = true).

(* ================================================================== *)
(** ** The pivot, column by column *)

(** The column labels before the all-null columns are dropped. *)
Definition pivot_columns (es : list event) : list string :=
  sort_values String.leb
    (nodup string_dec (map (fun r => snd (fst r)) (dropna_rows (groupby_first es)))).

(** The cells of column [v], top to bottom. *)
Definition pivot_column (es : list event) (v : string) : list float64 :=
  map (fun t => first_valid (group_values es (t, v)))
      (DATETIME (convert_long_to_wide es)).

(* ================================================================== *)
(** ** The batch script [detect_from_sql.py] *)

(** The query of [read_data_from_sql] selects [datetime, variable_name,
    value] only. *)
Definition drop_source (e : event) : event :=
  mkEvent (datetime e) (variable_name e) (value e) None.

(** One bound of the date range: a bound that is [None] or the empty
    string adds no condition.  A bound is carried as the instant its text
    denotes. *)
Definition from_bound (start_date : option Z) (t : Z) : bool :=
  match start_date with
  | Some s => (s <=? t)%Z
  | None => true
  end.

Definition to_bound (end_date : option Z) (t : Z) : bool :=
  match end_date with
  | Some s => (t <=? s)%Z
  | None => true
  end.

(** [WHERE datetime >= start_date AND datetime <= end_date
    ORDER BY datetime, variable_name]. *)
Definition select_range (tbl : list event) (start_date end_date : option Z)
  : list event :=
  sort_values event_leb
    (filter (fun e => from_bound start_date (datetime e) && to_bound end_date (datetime e))
            (map drop_source tbl)).

(** [read_data_from_sql]: [None] when no row is read, the wide frame
    otherwise. *)
Definition read_data_from_sql (ans : query_answer) (start_date end_date : option Z)
  : outcome (option WideFrame) :=
  match ans with
  | Table tbl =>
      match select_range tbl start_date end_date with
      | [] => Ok None
      | rows => Ok (Some (convert_long_to_wide rows))
      end
  | ReturnsNone => Ok None
  | QueryRaises => Raise SQLError
  end.

(** [df.rename(columns={old: new})] *)
Definition rename_col (old new : string) (df : DataFrame) : DataFrame :=
  map (fun lc => (if String.eqb (fst lc) old then new else fst lc, snd lc)) df.

(** Lines 198-213 of [main]: the default source, the conversion of the
    flags, the rename of the timestamp column, and the sum of
    [is_anomaly] that the report prints. *)
Definition prepare_batch_results (results : DataFrame) : outcome DataFrame :=
  let r1 :=
    if has_col "source_file" results then results
    else set_col "source_file"
           (ObjectCol (repeat (Some "sql_datos_proceso") (len results))) results in
  r2 <- convert_bool_cols bool_cols r1 ;;
  let r3 :=
    if negb (has_col "ds" r2) && has_col "DATETIME" r2
    then rename_col "DATETIME" "ds" r2 else r2 in
  _ <- sum_is_anomaly r3 ;;
  Ok r3.

(** The answers of the environment to one run of the script. *)
Record batch_env : Type := mkBatch {
  b_models_on_disk : bool;
  b_connect : bool;
  b_create_table : outcome unit;                   (* create_anomalies_table *)
  b_load_models : outcome ProphetAnomalyDetector;  (* detector.load_models *)
  b_input : query_answer;                          (* the query of read_data_from_sql *)
  b_write : DataFrame -> outcome bool;             (* sql_conn.write_dataframe *)
  b_summary : DataFrame -> outcome unit            (* detector.get_anomaly_summary *)
}.

(** The body of the outer [try] of [main], lines 147-260; the writes it
    issues and how it ends: [Ok] is a return, [Raise] an exception that
    leaves the block. *)
Definition batch_body (env : batch_env) : list effect * outcome unit :=
  match b_create_table env with
  | Raise e => ([], Raise e)
  | Ok _ =>
      match b_load_models env with
      | Raise _ => ([], Ok tt)
      | Ok det =>
          match read_data_from_sql (b_input env) None None with
          | Raise e => ([], Raise e)
          | Ok None => ([], Ok tt)
          | Ok (Some df) =>
              match available_vars det df with
              | [] => ([], Ok tt)
              | vars =>
                  match detect_anomalies_multiple det df vars with
                  | Raise _ => ([], Ok tt)
                  | Ok None => ([], Ok tt)
                  | Ok (Some results) =>
                      match prepare_batch_results results with
                      | Raise _ => ([], Ok tt)
                      | Ok r =>
                          let results_to_write := select_columns r in
                          let success := b_write env results_to_write in
                          ([Wrote results_to_write success],
                           match success with
                           | Raise e => Raise e
                           | Ok _ =>
                               if Nat.ltb 0 (len r) then b_summary env r else Ok tt
                           end)
                      end
                  end
              end
          end
      end
  end.

(** [main] of [detect_from_sql.py]: what it writes and closes, and the
    exception that leaves it, if any. *)
Definition detect_from_sql_main (env : batch_env) : list effect * option exn :=
  if negb (b_models_on_disk env) then ([], None)
  else if negb (b_connect env) then ([], None)
  else
    let '(log, r) := batch_body env in
    (log ++ [Disconnected],
     match r with
     | Ok _ => None
     | Raise e => Some e
     end).

(* ================================================================== *)
(** ** Creating a table and its indexes
    [create_anomalies_table, create_datos_proceso_table] *)

(** What the bootstrap sees of a table: the names of its indexes (the
    rows of [sys.indexes] for the table) and the [CREATE INDEX]
    statements that were sent, oldest first. *)
Record catalog : Type := mkCatalog {
  indexes : list string;
  issued : list string
}.

(** The server during a bootstrap: whether the lookup in [sys.indexes]
    raises for an index, and whether its [CREATE INDEX] takes effect. *)
Record index_env : Type := mkIndexEnv {
  check_raises : string -> bool;
  create_succeeds : string -> bool
}.

Definition index_exists (idx_name : string) (c : catalog) : bool :=
  existsb (String.eqb idx_name) (indexes c).

(** One turn of the loop over [indexes]: the body of the [try], whose
    exceptions are swallowed by [except Exception: pass]. A lookup that
    raises leaves the catalog as it is; so does a statement that fails,
    except that it was sent. *)
Definition ensure_index (env : index_env) (c : catalog) (idx_name : string)
  : catalog :=
  if check_raises env idx_name then c
  else if index_exists idx_name c then c
  else mkCatalog (if create_succeeds env idx_name
                  then idx_name :: indexes c else indexes c)
                 (issued c ++ [idx_name]).

Definition create_indexes (env : index_env) (names : list string) (c : catalog)
  : catalog :=
  fold_left (ensure_index env) names c.

(** The table is created first, outside of any [try]: an exception of
    [create_table_if_not_exists] leaves the function before the loop. *)
Definition create_table_and_indexes (names : list string)
    (create_table_if_not_exists : outcome unit) (env : index_env) (c : catalog)
  : outcome catalog :=
  _ <- create_table_if_not_exists ;;
  Ok (create_indexes env names c).

(** [create_anomalies_table] of [worker_procesamiento.py]. *)
Definition create_anomalies_table :=
  create_table_and_indexes
    ["idx_ds"; "idx_variable"; "idx_is_anomaly"; "idx_processed_at"].

(** [create_anomalies_table] of [detect_from_sql.py], which has one
    index more. *)
Definition batch_create_anomalies_table :=
  create_table_and_indexes
    ["idx_ds"; "idx_variable"; "idx_is_anomaly"; "idx_anomaly_score";
     "idx_processed_at"].

(** [create_datos_proceso_table] of [write_training_data_to_sql.py]. *)
Definition create_datos_proceso_table :=
  create_table_and_indexes ["idx_datetime"; "idx_variable"; "idx_created"].

(** ** Loading the training data [write_training_data_to_sql.main] *)

Inductive load_effect : Type :=
| WroteRows (df_long : list event) (status : outcome bool)
| ClosedConnection.

(** The surroundings of a run: the [*_cleaned.csv] files found, each
    with its stem and what [read_csv] makes of it, and the answers of
    the database. *)
Record load_env : Type := mkLoad {
  cleaned_files : list (string * outcome WideFrame);
  l_connect : bool;
  l_create_table : outcome unit;
  l_write : list event -> outcome bool
}.

(** The loop over the files, with the running [total_rows]. *)
Fixpoint write_files (env : load_env) (files : list (string * outcome WideFrame))
    (total_rows : nat) : list load_effect * outcome nat :=
  match files with
  | [] => ([], Ok total_rows)
  | (stem, Raise e) :: _ => ([], Raise e)
  | (stem, Ok df) :: rest =>
      let df_long := transform_data_to_long_format df (Some stem) in
      let success := l_write env df_long in
      match success with
      | Raise e => ([WroteRows df_long success], Raise e)
      | Ok b =>
          let total := if b then (total_rows + List.length df_long)%nat
                       else total_rows in
          let '(log, r) := write_files env rest total in
          (WroteRows df_long success :: log, r)
      end
  end.

(** [main]: the effects, in order, and either the total that the
    summary prints, or nothing when the run ends before the summary, or
    the exception that leaves it. *)
Definition load_main (env : load_env) : list load_effect * outcome (option nat) :=
  match cleaned_files env with
  | [] => ([], Ok None)
  | files =>
      if negb (l_connect env) then ([], Ok None)
      else
        let '(log, r) :=
          match l_create_table env with
          | Raise e => ([], Raise e)
          | Ok _ => write_files env files 0
          end in
        (log ++ [ClosedConnection],
         match r with
         | Ok total => Ok (Some total)
         | Raise e => Raise e
         end)
  end.


(** The rows that a run reports as written. *)
Fixpoint rows_accepted (log : list load_effect) : nat :=
  match log with
  | [] => 0
  | WroteRows df_long (Ok true) :: rest => (List.length df_long + rows_accepted rest)%nat
  | _ :: rest => rows_accepted rest
  end.

(** ** The configuration [config_loader.py] *)

(** A YAML document as [yaml.safe_load] returns it: null, a scalar, or
    a mapping with string keys. *)
#[warnings="-register-all"] Inductive yaml : Type :=
| YNull
| YBool (b : bool)
| YInt (z : Z)
| YStr (s : string)
| YMap (m : list (string * yaml)).

Inductive config_error : Type :=
| FileNotFoundError
| MissingKey (key : string)
| NotSubscriptable
| AttributeError.

Inductive loaded (A : Type) : Type :=
| Loaded (a : A)
| Failed (e : config_error).

Arguments Loaded {A} a.
Arguments Failed {A} e.

Definition lbind {A B : Type} (m : loaded A) (k : A -> loaded B) : loaded B :=
  match m with
  | Loaded a => k a
  | Failed e => Failed e
  end.

Notation "'let?' x := m 'in' k" := (lbind m (fun x => k))
  (at level 10, x name, m at level 100, k at level 200).

(** The value of a key in a mapping. *)
Definition lookup (k : string) (m : list (string * yaml)) : option yaml :=
  option_map snd (find (fun kv => String.eqb (fst kv) k) m).

(** [d[k]]: a missing key is a [KeyError], and nothing but a mapping
    can be subscripted with a string. *)
Definition subscript (d : yaml) (k : string) : loaded yaml :=
  match d with
  | YMap m => match lookup k m with
              | Some v => Loaded v
              | None => Failed (MissingKey k)
              end
  | _ => Failed NotSubscriptable
  end.

(** [k in d], for the mapping that [d] is where the code asks. *)
Definition contains (k : string) (d : yaml) : loaded bool :=
  match d with
  | YMap m => Loaded (match lookup k m with Some _ => true | None => false end)
  | _ => Failed NotSubscriptable
  end.

(** [d.get(k, default)]. *)
Definition dict_get (d : yaml) (k : string) (default : yaml) : loaded yaml :=
  match d with
  | YMap m => Loaded (match lookup k m with Some v => v | None => default end)
  | _ => Failed AttributeError
  end.

(** Python's truth value of a configuration entry. *)
Definition truthy (v : yaml) : bool :=
  match v with
  | YNull => false
  | YBool b => b
  | YInt z => negb (z =? 0)%Z
  | YStr s => negb (String.eqb s "")
  | YMap m => match m with [] => false | _ => true end
  end.

(** [load_config()]; [config_yaml] is the content of [config.yaml], or
    nothing when the file does not exist. The file is taken not to
    change while a configuration is put together. *)
Definition load_config (config_yaml : option yaml) : loaded yaml :=
  match config_yaml with
  | Some config => Loaded config
  | None => Failed FileNotFoundError
  end.

Definition get_database_config (config_yaml : option yaml) : loaded yaml :=
  let? config := load_config config_yaml in subscript config "database".

Definition get_flood_config (config_yaml : option yaml) : loaded yaml :=
  let? config := load_config config_yaml in subscript config "flood_system".

Definition get_anomaly_config (config_yaml : option yaml) : loaded yaml :=
  let? config := load_config config_yaml in subscript config "anomaly_system".

(** The keys that [get_sql_config_dict] copies from the database
    section. *)
Definition connection_keys : list string :=
  ["server"; "port"; "username"; "password"; "driver"; "schema"].

(** [get_sql_config_dict(database)]; [YNull] is the default [None]. *)
Definition get_sql_config_dict (config_yaml : option yaml) (database : yaml)
  : loaded (list (string * yaml)) :=
  let? db_config := get_database_config config_yaml in
  let? server := subscript db_config "server" in
  let? port := subscript db_config "port" in
  let? username := subscript db_config "username" in
  let? password := subscript db_config "password" in
  let? driver := subscript db_config "driver" in
  let? schema := subscript db_config "schema" in
  let config := [("server", server); ("port", port); ("username", username);
                 ("password", password); ("driver", driver); ("schema", schema)] in
  if truthy database then Loaded (config ++ [("database", database)])
  else
    let? has_database := contains "database" db_config in
    if has_database then
      let? d := subscript db_config "database" in
      Loaded (config ++ [("database", d)])
    else
      let? flood_config := get_flood_config config_yaml in
      let? d := dict_get flood_config "input_database" (YStr "otms_main") in
      Loaded (config ++ [("database", d)]).

(** [SQL_CONFIG], as the three scripts compute it when they are
    loaded. *)
Definition SQL_CONFIG (config_yaml : option yaml) : loaded (list (string * yaml)) :=
  let? anomaly_config := get_anomaly_config config_yaml in
  let? database := dict_get anomaly_config "input_database" (YStr "otms_main") in
  get_sql_config_dict config_yaml database.

(** ** The shape of a pivot *)


(* ================================================================== *)
(** ** Sample data *)

(** A detector output of three scored points of variable A, with
    out-of-range scores. *)
Definition sample_results : DataFrame :=
  [("ds", TimeCol [10000000; 20000000; 30000000]);
   ("y", FloatCol [Fin 10; Fin 12; Fin 11]);
   ("outside_interval", BoolCol [true; false; false]);
   ("high_residual", BoolCol [false; false; false]);
   ("is_anomaly", BoolCol [true; false; false]);
   ("anomaly_score", FloatCol [Fin 5000; NaN; Fin 3]);
   ("variable", ObjectCol [Some "A"; Some "A"; Some "A"]);
   ("prediction_error_pct", FloatCol [NaN; PosInf; Fin 2])].

(** A detector output that has no [anomaly_score] column. *)
Definition sample_results_no_score : DataFrame :=
  [("ds", TimeCol [10000000]);
   ("y", FloatCol [Fin 10]);
   ("is_anomaly", BoolCol [true]);
   ("variable", ObjectCol [Some "A"]);
   ("prediction_error_pct", FloatCol [Fin 3])].




(** Three new datetimes of a variable that has a model, and one row of
    a variable that has none. *)
Definition sample_table : list event :=
  [mkEvent 10000000 "A" (Fin 10) (Some "f1");
   mkEvent 20000000 "A" (Fin 12) (Some "f1");
   mkEvent 20000000 "B" (Fin 5) (Some "f1");
   mkEvent 30000000 "A" (Fin 11) (Some "f1")].

(** An event that reaches the input table while a cycle is running. *)
Definition late_event : event := mkEvent 40000000 "A" (Fin 99) (Some "f2").

Definition sample_detector : ProphetAnomalyDetector :=
  mkDetector ["A"] (fun _ _ => Ok (Some sample_results)).


Definition sample_worker : worker :=
  mkWorker (Some Connected) sample_detector 0 0 0 0.


(** A cycle on a table that does not change, with a write that succeeds. *)
Definition env_stable : cycle_env :=
  mkEnv (Table sample_table) (Table sample_table) (fun _ => Ok true) (Table sample_table).

(** A cycle whose write returns [False]. *)
Definition env_write_fails : cycle_env :=
  mkEnv (Table sample_table) (Table sample_table) (fun _ => Ok false) (Table sample_table).

(** A cycle during which [late_event] is inserted after the rows to
    process have been read and before the maximum is queried. *)
Definition env_late_arrival : cycle_env :=
  mkEnv (Table sample_table) (Table sample_table) (fun _ => Ok true)
        (Table (sample_table ++ [late_event])).

Definition sample_init : init_env :=
  mkInit true true (Ok sample_detector) (Ok None) 100000000000.

(** A detector whose output has no [is_anomaly] column. *)
Definition flagless_results : DataFrame :=
  [("ds", TimeCol [10000000]);
   ("variable", ObjectCol [Some "A"]);
   ("anomaly_score", FloatCol [Fin 3])].

Definition flagless_worker : worker :=
  mkWorker (Some Connected) (mkDetector ["A"] (fun _ _ => Ok (Some flagless_results)))
           0 0 0 0.

(** A run of the batch script on [sample_table]. *)
Definition sample_batch : batch_env :=
  mkBatch true true (Ok tt) (Ok sample_detector) (Table sample_table)
          (fun _ => Ok true) (fun _ => Ok tt).

(** A server on which every lookup and every statement succeeds, and a
    table without indexes. *)
Definition healthy_server : index_env :=
  mkIndexEnv (fun _ => false) (fun _ => true).

Definition bare_table : catalog := mkCatalog [] [].

(** Two cleaned files, the second of which the database refuses. *)
Definition sample_load : load_env :=
  mkLoad [("a_cleaned", Ok (mkWide [1000000; 2000000] [("A", [Fin 1; NaN])]));
          ("b_cleaned", Ok (mkWide [3000000] [("A", [Fin 2]); ("B", [Fin 3])]))]
         true (Ok tt)
         (fun df_long => Ok (Nat.ltb (List.length df_long) 2)).

(** A configuration whose database section names a database and
    whose anomaly section names none. *)
Definition sample_config : yaml :=
  YMap [("database",
         YMap [("server", YStr "10.0.0.5"); ("port", YInt 1433);
               ("username", YStr "svc"); ("password", YStr "secret");
               ("driver", YStr "ODBC Driver 17 for SQL Server");
               ("schema", YStr "dbo"); ("database", YStr "plant_db")]);
        ("anomaly_system",
         YMap [("input_table", YStr "datos_proceso");
               ("output_table", YStr "anomalies_detector")])].

(* ================================================================== *)
(** * Properties *)

(** ** Frames: reading and writing columns *)

Lemma get_set_same col c df : get_col col (set_col col c df) = Some c.
Proof.
  induction df as [|[l c0] rest IH]; simpl.
  - now rewrite String.eqb_refl.
  - destruct (String.eqb col l) eqn:E; simpl; rewrite E; auto.
Qed.

Lemma get_set_other col col' c df :
  col <> col' -> get_col col' (set_col col c df) = get_col col' df.
Proof.
  intros Hne. induction df as [|[l c0] rest IH]; simpl.
  - destruct (String.eqb_spec col' col); congruence.
  - destruct (String.eqb_spec col l); simpl.
    + subst l. destruct (String.eqb_spec col' col); congruence.
    + now rewrite IH.
Qed.

Lemma set_get_id col c df : get_col col df = Some c -> set_col col c df = df.
Proof.
  induction df as [|[l c0] rest IH]; simpl; [discriminate|].
  destruct (String.eqb col l); intros H.
  - congruence.
  - now rewrite IH.
Qed.

Lemma labels_set_present col c c0 df :
  get_col col df = Some c0 -> labels (set_col col c df) = labels df.
Proof.
  induction df as [|[l c1] rest IH]; simpl; [discriminate|].
  destruct (String.eqb col l); intros H; simpl; [reflexivity|].
  now rewrite IH.
Qed.

Lemma has_col_get col df : has_col col df = true <-> get_col col df <> None.
Proof.
  unfold has_col, labels. induction df as [|[l c] rest IH]; simpl.
  - split; [discriminate | congruence].
  - destruct (String.eqb col l); simpl; [split; congruence | exact IH].
Qed.

Lemma has_col_false col df : has_col col df = false <-> get_col col df = None.
Proof.
  destruct (has_col col df) eqn:E.
  - apply has_col_get in E. split; [discriminate | congruence].
  - split; [intros _ | reflexivity].
    destruct (get_col col df) eqn:G; [|reflexivity].
    assert (has_col col df = true) by (apply has_col_get; congruence).
    congruence.
Qed.

(** ** One guarded update *)

Lemma update_col_absent col f df :
  get_col col df = None -> update_col col f df = Ok df.
Proof. unfold update_col. now intros ->. Qed.

Lemma update_col_other col f df df' col' :
  update_col col f df = Ok df' -> col <> col' -> get_col col' df' = get_col col' df.
Proof.
  unfold update_col. destruct (get_col col df) as [c|].
  - destruct (f c) as [c'|e]; simpl; [|discriminate].
    intros [= <-] Hne. now apply get_set_other.
  - now intros [= <-].
Qed.

Lemma update_col_same col f df df' :
  update_col col f df = Ok df' ->
  match get_col col df with
  | Some c => exists c', f c = Ok c' /\ get_col col df' = Some c'
  | None => get_col col df' = None
  end.
Proof.
  unfold update_col. destruct (get_col col df) as [c|] eqn:G.
  - destruct (f c) as [c'|e]; simpl; [|discriminate].
    intros [= <-]. exists c'. split; [reflexivity | apply get_set_same].
  - now intros [= <-].
Qed.

Lemma update_col_labels col f df df' :
  update_col col f df = Ok df' -> labels df' = labels df.
Proof.
  unfold update_col. destruct (get_col col df) as [c|] eqn:G.
  - destruct (f c) as [c'|e]; simpl; [|discriminate].
    intros [= <-]. now apply labels_set_present with (c0 := c).
  - now intros [= <-].
Qed.

Lemma update_col_fixed col f df :
  (forall c, get_col col df = Some c -> f c = Ok c) -> update_col col f df = Ok df.
Proof.
  unfold update_col. intros H. destruct (get_col col df) as [c|] eqn:G; [|reflexivity].
  rewrite (H c eq_refl). simpl. now rewrite set_get_id.
Qed.

(** ** The table of steps *)

Lemma step_for_none col steps :
  ~ In col (map fst steps) -> step_for col steps = None.
Proof.
  induction steps as [|[l f] rest IH]; simpl; [reflexivity|].
  intros H. destruct (String.eqb_spec col l); [subst; tauto|].
  apply IH. tauto.
Qed.

Lemma run_steps_labels steps : forall df r,
  run_steps steps df = Ok r -> labels r = labels df.
Proof.
  induction steps as [|[l f] rest IH]; simpl; intros df r H.
  - now inversion H.
  - destruct (update_col l f df) as [d1|e] eqn:U; simpl in H; [|discriminate].
    rewrite (IH _ _ H). eapply update_col_labels; eauto.
Qed.

(** What a run of the table does to each column. *)
Lemma run_steps_get steps : forall df r,
  NoDup (map fst steps) ->
  run_steps steps df = Ok r ->
  forall col,
    match step_for col steps with
    | Some f =>
        match get_col col df with
        | Some c => exists c', f c = Ok c' /\ get_col col r = Some c'
        | None => get_col col r = None
        end
    | None => get_col col r = get_col col df
    end.
Proof.
  induction steps as [|[l f] rest IH]; simpl; intros df r Hnd H col.
  - now inversion H.
  - inversion Hnd as [|? ? Hnotin Hnd']; subst.
    destruct (update_col l f df) as [d1|e] eqn:U; simpl in H; [|discriminate].
    specialize (IH d1 r Hnd' H).
    destruct (String.eqb_spec col l) as [->|Hne].
    + specialize (IH l). rewrite (step_for_none _ _ Hnotin) in IH.
      pose proof (update_col_same _ _ _ _ U) as S.
      destruct (get_col l df) as [c|].
      * destruct S as (c' & Hf & Hg). exists c'. split; [assumption|congruence].
      * congruence.
    + specialize (IH col).
      assert (G : get_col col d1 = get_col col df)
        by (eapply update_col_other; eauto).
      now rewrite G in IH.
Qed.

(** A run of the table succeeds when every step succeeds on the column
    it finds. *)
Lemma run_steps_total steps : forall df,
  NoDup (map fst steps) ->
  (forall col f c, In (col, f) steps -> get_col col df = Some c -> exists c', f c = Ok c') ->
  exists r, run_steps steps df = Ok r.
Proof.
  induction steps as [|[l f] rest IH]; simpl; intros df Hnd Hok.
  - now exists df.
  - inversion Hnd as [|? ? Hnotin Hnd']; subst.
    assert (U : exists d1, update_col l f df = Ok d1).
    { unfold update_col. destruct (get_col l df) as [c|] eqn:G; [|now exists df].
      destruct (Hok l f c (or_introl eq_refl) G) as (c' & ->). simpl. eauto. }
    destruct U as (d1 & U). rewrite U. simpl.
    apply IH; [assumption|].
    intros col g c Hin Hg.
    assert (col <> l).
    { intros ->. apply Hnotin. apply in_map_iff. now exists (l, g). }
    apply (Hok col g c); [now right|].
    erewrite <- update_col_other; eauto.
Qed.

Lemma run_steps_fixed steps : forall df,
  (forall col f c, In (col, f) steps -> get_col col df = Some c -> f c = Ok c) ->
  run_steps steps df = Ok df.
Proof.
  induction steps as [|[l f] rest IH]; simpl; intros df H; [reflexivity|].
  rewrite update_col_fixed by (intros c; apply H; now left).
  simpl. apply IH. intros col g c Hin. apply H. now right.
Qed.

Lemma step_for_in col f steps : step_for col steps = Some f -> In (col, f) steps.
Proof.
  induction steps as [|[l g] rest IH]; simpl; [discriminate|].
  destruct (String.eqb_spec col l) as [->|Hne].
  - intros [= ->]. now left.
  - intros H. right. now apply IH.
Qed.

Lemma in_step_for col f steps :
  NoDup (map fst steps) -> In (col, f) steps -> step_for col steps = Some f.
Proof.
  induction steps as [|[l g] rest IH]; simpl; [tauto|].
  intros Hnd [H|H]; inversion Hnd; subst.
  - inversion H; subst. now rewrite String.eqb_refl.
  - destruct (String.eqb_spec col l) as [->|Hne]; [|now apply IH].
    exfalso. match goal with N : ~ In _ _ |- _ => apply N end.
    apply in_map_iff. now exists (l, f).
Qed.

Lemma sanitize_as_steps results : sanitize results = run_steps sanitize_steps results.
Proof.
  unfold sanitize, sanitize_steps, bool_cols. simpl.
  destruct (update_col "outside_interval" astype_int results); simpl; [|reflexivity].
  destruct (update_col "high_residual" astype_int a); simpl; [|reflexivity].
  destruct (update_col "is_anomaly" astype_int a0); simpl; [|reflexivity].
  destruct (update_col "anomaly_score" fillna_clip a1); simpl; [|reflexivity].
  destruct (update_col "prediction_error_pct" _ a2); reflexivity.
Qed.

Lemma sanitize_steps_nodup : NoDup (map fst sanitize_steps).
Proof.
  simpl. repeat constructor; simpl; intuition discriminate.
Qed.

(** ** Cells *)

Lemma bounds_ordered : Qle_bool clip_lower clip_upper = true.
Proof. reflexivity. Qed.

Lemma clip_in_range f :
  isna f = false -> in_range (clip clip_lower clip_upper f) = true.
Proof.
  destruct f as [| | |q]; simpl; try discriminate; intros _; try reflexivity.
  destruct (Qle_bool clip_lower q) eqn:L; simpl.
  - destruct (Qle_bool q clip_upper) eqn:U; simpl.
    + now rewrite L, U.
    + reflexivity.
  - reflexivity.
Qed.

Lemma fillna0_notna f : isna (fillna0 f) = false.
Proof. now destruct f. Qed.

Lemma in_range_clip f : in_range f = true -> clip clip_lower clip_upper f = f.
Proof.
  destruct f as [| | |q]; simpl; try discriminate.
  intros H. apply andb_prop in H as [-> ->]. reflexivity.
Qed.

Lemma in_range_fillna0 f : in_range f = true -> fillna0 f = f.
Proof. now destruct f. Qed.

Lemma in_range_replace_inf f : in_range f = true -> replace_inf f = f.
Proof. now destruct f. Qed.

Lemma clean_in_range f :
  in_range (clip clip_lower clip_upper (fillna0 f)) = true.
Proof. apply clip_in_range, fillna0_notna. Qed.

Lemma in_range_bounds f :
  in_range f = true -> exists q, f = Fin q /\ (0 <= q)%Q /\ (q <= 99999 # 100)%Q.
Proof.
  destruct f as [| | |q]; simpl; try discriminate.
  intros H. apply andb_prop in H as [L U].
  exists q. repeat split; now apply Qle_bool_iff.
Qed.

(** ** Columns *)

Lemma astype_int_idem c c' : astype_int c = Ok c' -> astype_int c' = Ok c'.
Proof.
  destruct c; simpl; try discriminate; try (intros [= <-]; reflexivity).
  destruct (forallb isfinite fs); [|discriminate]. now intros [= <-].
Qed.

Lemma map_fixed {A} (f : A -> A) l : Forall (fun x => f x = x) l -> map f l = l.
Proof. induction 1; simpl; congruence. Qed.

Lemma in_range_clean f :
  in_range f = true -> clip clip_lower clip_upper (fillna0 f) = f.
Proof.
  intros R. rewrite (in_range_fillna0 _ R). now apply in_range_clip.
Qed.

Lemma fillna_clip_idem c c' : fillna_clip c = Ok c' -> fillna_clip c' = Ok c'.
Proof.
  destruct c; unfold fillna_clip; try discriminate; intros [= <-]; try reflexivity.
  - do 2 f_equal. apply map_fixed. apply Forall_forall.
    intros f Hf. apply in_map_iff in Hf as (z & <- & _).
    apply in_range_clean. now apply (clip_in_range (Fin (inject_Z z))).
  - do 2 f_equal. apply map_fixed. apply Forall_forall.
    intros f Hf. apply in_map_iff in Hf as (g & <- & _).
    apply in_range_clean. apply (clean_in_range g).
Qed.

Lemma fillna_clip_in_range c fs :
  fillna_clip c = Ok (FloatCol fs) -> Forall (fun f => in_range f = true) fs.
Proof.
  destruct c; simpl; try discriminate; intros [= <-]; apply Forall_forall;
    intros f Hf; apply in_map_iff in Hf as (g & <- & _).
  - now apply (clip_in_range (Fin (inject_Z g))).
  - apply (clean_in_range g).
Qed.

Lemma replace_inf_col_fixed c fs :
  fillna_clip (replace_inf_col c) = Ok (FloatCol fs) ->
  replace_inf_col (FloatCol fs) = FloatCol fs.
Proof.
  intros H. apply fillna_clip_in_range in H. simpl. f_equal.
  apply map_fixed. eapply Forall_impl; [|exact H].
  intros f. apply in_range_replace_inf.
Qed.

Lemma error_pct_idem c c' :
  fillna_clip (replace_inf_col c) = Ok c' -> fillna_clip (replace_inf_col c') = Ok c'.
Proof.
  intros H. pose proof (fillna_clip_idem _ _ H) as I.
  destruct c' as [bs|zs|fs|ts|os]; try exact I.
  now rewrite (replace_inf_col_fixed _ _ H).
Qed.

Lemma sanitize_steps_idem col f c c' :
  In (col, f) sanitize_steps -> f c = Ok c' -> f c' = Ok c'.
Proof.
  unfold sanitize_steps. simpl.
  intros [H|[H|[H|[H|[H|[]]]]]]; inversion H; subst; clear H.
  - apply astype_int_idem.
  - apply astype_int_idem.
  - apply astype_int_idem.
  - apply fillna_clip_idem.
  - apply error_pct_idem.
Qed.

(** ** Column selection *)

Lemma select_columns_labels results col :
  In col (labels (select_columns results)) ->
  In col columns_to_write /\ get_col col results <> None.
Proof.
  unfold select_columns, labels. intros H.
  apply in_map_iff in H as ((l, c) & Hl & Hin). simpl in Hl. subst l.
  apply in_flat_map in Hin as (x & Hx & Hin).
  destruct (get_col x results) as [c0|] eqn:G; [|contradiction].
  destruct Hin as [Hin|[]]. inversion Hin; subst. split; [assumption|congruence].
Qed.

Lemma has_col_in col df : has_col col df = true <-> In col (labels df).
Proof.
  unfold has_col. rewrite existsb_exists. split.
  - intros (x & Hx & E). apply String.eqb_eq in E. now subst.
  - intros H. exists col. split; [assumption | apply String.eqb_refl].
Qed.

Lemma select_columns_absent results col :
  get_col col results = None -> has_col col (select_columns results) = false.
Proof.
  intros G. destruct (has_col col (select_columns results)) eqn:E; [|reflexivity].
  apply has_col_in, select_columns_labels in E. tauto.
Qed.

Lemma run_steps_skip col steps : forall df,
  get_col col df = None ->
  run_steps steps df = run_steps (without_step col steps) df.
Proof.
  induction steps as [|[l f] rest IH]; simpl; intros df G; [reflexivity|].
  destruct (String.eqb_spec col l) as [<-|Hne]; simpl.
  - rewrite update_col_absent by assumption. simpl. now apply IH.
  - destruct (update_col l f df) as [d1|e] eqn:U; simpl; [|reflexivity].
    apply IH. erewrite update_col_other; eauto.
Qed.

Lemma add_source_file_other df_long results r0 col :
  add_source_file df_long results = Ok r0 ->
  col <> "source_file" -> get_col col r0 = get_col col results.
Proof.
  unfold add_source_file. intros H Hne.
  destruct (has_col "source_file" results); [now inversion H|].
  destruct (get_col "ds" results) as [d|]; [|discriminate].
  destruct (get_col "variable" results) as [v|];
    [|destruct d; discriminate].
  destruct d, v; inversion H; subst; apply get_set_other; congruence.
Qed.

(* ================================================================== *)
(** ** The sanitizer *)

Lemma sanitize_total results :
  detector_schema results -> exists r, sanitize results = Ok r.
Proof.
  intros [Hb Hf]. rewrite sanitize_as_steps.
  apply run_steps_total; [apply sanitize_steps_nodup|].
  unfold sanitize_steps. simpl.
  intros col f c [H|[H|[H|[H|[H|[]]]]]] G; inversion H; subst; clear H.
  - specialize (Hb _ c (or_introl eq_refl) G).
    destruct c; try discriminate. simpl. eauto.
  - specialize (Hb _ c (or_intror (or_introl eq_refl)) G).
    destruct c; try discriminate. simpl. eauto.
  - specialize (Hb _ c (or_intror (or_intror (or_introl eq_refl))) G).
    destruct c; try discriminate. simpl. eauto.
  - specialize (Hf _ c (or_introl eq_refl) G).
    destruct c; try discriminate. simpl. eauto.
  - specialize (Hf _ c (or_intror (or_introl eq_refl)) G).
    destruct c; try discriminate. simpl. eauto.
Qed.

(** The column [col] of a sanitized frame, for a column the sanitizer
    touches with [f]. *)
Lemma sanitize_get results r col f :
  sanitize results = Ok r ->
  In (col, f) sanitize_steps ->
  match get_col col results with
  | Some c => exists c', f c = Ok c' /\ get_col col r = Some c'
  | None => get_col col r = None
  end.
Proof.
  rewrite sanitize_as_steps. intros H Hin.
  pose proof (run_steps_get _ _ _ sanitize_steps_nodup H col) as G.
  now rewrite (in_step_for _ _ _ sanitize_steps_nodup Hin) in G.
Qed.

Lemma b2z_01 bs : Forall (fun z => z = 0 \/ z = 1) (map b2z bs).
Proof.
  induction bs as [|[|] bs IH]; simpl; constructor; auto.
Qed.

Lemma bool_cols_steps col :
  In col bool_cols -> In (col, astype_int) sanitize_steps.
Proof.
  unfold bool_cols, sanitize_steps. simpl.
  intros [<-|[<-|[<-|[]]]]; auto.
Qed.

(** C5: on a detector output (flags of dtype bool, scores of dtype
    float) the sanitizer succeeds; every cell of [prediction_error_pct]
    is its input with an infinity replaced by null, then null filled with
    0, then clamped into [[0, 999.99]]; every cell of [anomaly_score] is
    its input null-filled with 0 and clamped; all cells of both columns
    end inside [[0, 999.99]]; the three flags become integers in
    [{0, 1}]; a score of 5000 becomes 999.99; a null and an infinite
    error percentage become 0. *)
Theorem sanitize_clamps_and_converts results :
  detector_schema results ->
  exists r,
    sanitize results = Ok r /\
    (forall fs, get_col "prediction_error_pct" results = Some (FloatCol fs) ->
       get_col "prediction_error_pct" r =
       Some (FloatCol (map (fun f => clip clip_lower clip_upper (fillna0 (replace_inf f))) fs))) /\
    (forall fs, get_col "anomaly_score" results = Some (FloatCol fs) ->
       get_col "anomaly_score" r =
       Some (FloatCol (map (fun f => clip clip_lower clip_upper (fillna0 f)) fs))) /\
    (forall col c, In col ["anomaly_score"; "prediction_error_pct"] ->
       get_col col r = Some c ->
       exists fs, c = FloatCol fs /\
         Forall (fun f => exists q, f = Fin q /\ (0 <= q)%Q /\ (q <= 99999 # 100)%Q) fs) /\
    (forall col bs, In col bool_cols ->
       get_col col results = Some (BoolCol bs) ->
       get_col col r = Some (IntCol (map b2z bs))) /\
    (forall col c, In col bool_cols -> get_col col r = Some c ->
       exists zs, c = IntCol zs /\ Forall (fun z => z = 0 \/ z = 1) zs) /\
    clip clip_lower clip_upper (fillna0 (Fin 5000)) = Fin (99999 # 100) /\
    clip clip_lower clip_upper (fillna0 (replace_inf NaN)) = Fin 0 /\
    clip clip_lower clip_upper (fillna0 (replace_inf PosInf)) = Fin 0 /\
    clip clip_lower clip_upper (fillna0 (replace_inf NegInf)) = Fin 0.
Proof.
  intros Hs. destruct (sanitize_total _ Hs) as (r & Hr).
  destruct Hs as [Hb Hf].
  exists r. split; [assumption|].
  assert (Hpe : In ("prediction_error_pct",
                    fun c => fillna_clip (replace_inf_col c)) sanitize_steps)
    by (unfold sanitize_steps; simpl; auto 6).
  assert (Has : In ("anomaly_score", fillna_clip) sanitize_steps)
    by (unfold sanitize_steps; simpl; auto 6).
  repeat split; try reflexivity.
  - intros fs G. pose proof (sanitize_get _ _ _ _ Hr Hpe) as S.
    rewrite G in S. destruct S as (c' & Hc & ->).
    simpl in Hc. inversion Hc; subst. now rewrite map_map.
  - intros fs G. pose proof (sanitize_get _ _ _ _ Hr Has) as S.
    rewrite G in S. destruct S as (c' & Hc & ->).
    simpl in Hc. now inversion Hc.
  - intros col c Hin G.
    assert (Hstep : exists f, In (col, f) sanitize_steps /\
                     forall c0 c', is_float_col c0 = true -> f c0 = Ok c' ->
                       exists fs, c' = FloatCol fs /\ Forall (fun f => in_range f = true) fs).
    { destruct Hin as [<-|[<-|[]]].
      - exists fillna_clip. split; [assumption|].
        intros c0 c' T E. destruct c0; try discriminate.
        pose proof E as E'. simpl in E'. inversion E'; subst c'.
        eexists. split; [reflexivity|]. eapply fillna_clip_in_range; eauto.
      - exists (fun c => fillna_clip (replace_inf_col c)). split; [assumption|].
        intros c0 c' T E. destruct c0; try discriminate.
        pose proof E as E'. simpl in E'. inversion E'; subst c'.
        eexists. split; [reflexivity|]. eapply fillna_clip_in_range; eauto. }
    destruct Hstep as (f & Hfin & Hfr).
    pose proof (sanitize_get _ _ _ _ Hr Hfin) as S.
    destruct (get_col col results) as [c0|] eqn:G0; [|congruence].
    destruct S as (c' & Hc & Hg). rewrite Hg in G. inversion G; subst c'.
    destruct (Hfr c0 c (Hf _ _ Hin G0) Hc) as (fs & -> & Hall).
    exists fs. split; [reflexivity|].
    eapply Forall_impl; [|exact Hall]. intros a. apply in_range_bounds.
  - intros col bs Hin G.
    pose proof (sanitize_get _ _ _ _ Hr (bool_cols_steps _ Hin)) as S.
    rewrite G in S. destruct S as (c' & Hc & ->). simpl in Hc. now inversion Hc.
  - intros col c Hin G.
    pose proof (sanitize_get _ _ _ _ Hr (bool_cols_steps _ Hin)) as S.
    destruct (get_col col results) as [c0|] eqn:G0; [|congruence].
    destruct S as (c' & Hc & Hg). rewrite Hg in G. inversion G; subst c'.
    pose proof (Hb _ _ Hin G0) as T. destruct c0; try discriminate.
    simpl in Hc. inversion Hc; subst.
    eexists. split; [reflexivity | apply b2z_01].
Qed.

Lemma sample_results_schema : detector_schema sample_results.
Proof.
  split; intros col c Hin G; simpl in Hin;
    repeat (destruct Hin as [<-|Hin]; [vm_compute in G; inversion G; reflexivity|]);
    contradiction.
Qed.

Lemma sanitize_clamps_and_converts_witness :
  exists r,
    sanitize sample_results = Ok r /\
    get_col "anomaly_score" r = Some (FloatCol [Fin (99999 # 100); Fin 0; Fin 3]) /\
    get_col "prediction_error_pct" r = Some (FloatCol [Fin 0; Fin 0; Fin 2]) /\
    get_col "is_anomaly" r = Some (IntCol [1; 0; 0]).
Proof.
  destruct (sanitize_clamps_and_converts sample_results sample_results_schema)
    as (r & Hr & Hpe & Has & _ & Hb & _).
  exists r. split; [exact Hr|]. split; [|split].
  - exact (Has _ eq_refl).
  - exact (Hpe _ eq_refl).
  - apply (Hb "is_anomaly" [true; false; false]); [simpl; auto | reflexivity].
Defined.

(** C6: sanitizing a sanitized frame changes nothing: running the
    sanitizer on its own result gives that result again (and an error of
    the first run is the outcome of both sides). *)
Theorem sanitize_idempotent x :
  (y <- sanitize x ;; sanitize y) = sanitize x.
Proof.
  destruct (sanitize x) as [y|e] eqn:S; simpl; [|reflexivity].
  rewrite sanitize_as_steps. apply run_steps_fixed.
  intros col f c Hin G.
  pose proof (sanitize_get _ _ _ _ S Hin) as R.
  destruct (get_col col x) as [c0|]; [|congruence].
  destruct R as (c' & Hc & Hg). rewrite Hg in G. inversion G; subst c'.
  eapply sanitize_steps_idem; eauto.
Qed.

(** ** Columns the detector did not return *)

Lemma sanitized_cols_not_source col :
  In col sanitized_cols -> col <> "source_file".
Proof.
  unfold sanitized_cols, sanitize_steps. simpl.
  intros [<-|[<-|[<-|[<-|[<-|[]]]]]]; discriminate.
Qed.

Lemma sanitize_absent results r col :
  sanitize results = Ok r -> get_col col results = None -> get_col col r = None.
Proof.
  rewrite sanitize_as_steps. intros H G.
  pose proof (run_steps_get _ _ _ sanitize_steps_nodup H col) as S.
  rewrite G in S. destruct (step_for col sanitize_steps); assumption.
Qed.

(** C9: when the frame returned by the detector has no column [col], for
    [col] one of the three flags, [anomaly_score] or
    [prediction_error_pct], the sanitizer runs exactly as the pipeline
    without the step of [col]; the sanitized frame and the batch handed
    to the result sink have no column [col]; and the batch is handed to
    the sink: the pass reaches the write. *)
Theorem absent_column_is_skipped env det df_long df_wide vars n results col r0 :
  In col sanitized_cols ->
  detect_anomalies_multiple det df_wide vars = Ok (Some results) ->
  len results <> 0%nat ->
  get_col col results = None ->
  add_source_file df_long results = Ok r0 ->
  sanitize r0 = run_steps (without_step col sanitize_steps) r0 /\
  forall r, sanitize r0 = Ok r ->
    get_col col r = None /\
    has_col col (select_columns r) = false /\
    fst (detect_and_write env det df_long df_wide vars n) =
      [Wrote (select_columns r) (write_dataframe env (select_columns r))].
Proof.
  intros Hin Hdet Hlen Habs Hsrc.
  assert (G0 : get_col col r0 = None).
  { rewrite (add_source_file_other _ _ _ _ Hsrc); [assumption|].
    now apply sanitized_cols_not_source. }
  split.
  - rewrite sanitize_as_steps. now apply run_steps_skip.
  - intros r Hr.
    pose proof (sanitize_absent _ _ _ Hr G0) as G.
    split; [assumption|]. split; [now apply select_columns_absent|].
    unfold detect_and_write. rewrite Hdet.
    destruct (Nat.eqb_spec (len results) 0); [contradiction|].
    rewrite Hsrc. simpl. rewrite Hr. reflexivity.
Qed.

Lemma absent_column_is_skipped_witness :
  let r0 := set_col "source_file" (ObjectCol [Some "unknown"]) sample_results_no_score in
  sanitize r0 = run_steps (without_step "anomaly_score" sanitize_steps) r0.
Proof.
  pose (env := mkEnv (Table []) (Table []) (fun _ => Ok true) (Table [])).
  pose (det := mkDetector ["A"] (fun _ _ => Ok (Some sample_results_no_score))).
  assert (Hin : In "anomaly_score" sanitized_cols) by (simpl; auto).
  assert (Hlen : len sample_results_no_score <> 0%nat) by (simpl; lia).
  exact (proj1 (absent_column_is_skipped env det [] (mkWide [] []) ["A"] 1
                  sample_results_no_score "anomaly_score" _
                  Hin eq_refl Hlen eq_refl eq_refl)).
Defined.

(** After a successful write the pass reads [results['is_anomaly']]
    without a guard: a detector output with no [is_anomaly] column is
    written and then the pass ends in the [except] branch with
    [(0, 0)]. *)
Lemma missing_is_anomaly_after_write env det df_long df_wide vars n results r0 r :
  detect_anomalies_multiple det df_wide vars = Ok (Some results) ->
  len results <> 0%nat ->
  add_source_file df_long results = Ok r0 ->
  sanitize r0 = Ok r ->
  get_col "is_anomaly" results = None ->
  write_dataframe env (select_columns r) = Ok true ->
  detect_and_write env det df_long df_wide vars n =
    ([Wrote (select_columns r) (Ok true)], Raise KeyError).
Proof.
  intros Hdet Hlen Hsrc Hr Habs Hw.
  assert (G : get_col "is_anomaly" r = None).
  { apply (sanitize_absent _ _ _ Hr).
    rewrite (add_source_file_other _ _ _ _ Hsrc); [assumption | discriminate]. }
  unfold detect_and_write. rewrite Hdet.
  destruct (Nat.eqb_spec (len results) 0); [contradiction|].
  rewrite Hsrc. simpl. rewrite Hr, Hw. unfold sum_is_anomaly. now rewrite G.
Qed.

(* ================================================================== *)
(** ** Sorting and keys *)

Section SortingFacts.
Context {A : Type} (le : A -> A -> bool).

Lemma insert_sorted_perm x l : Permutation (insert_sorted le x l) (x :: l).
Proof.
  induction l as [|y rest IH]; simpl; [reflexivity|].
  destruct (le x y); [reflexivity|].
  rewrite IH. apply perm_swap.
Qed.

Lemma sort_values_perm l : Permutation (sort_values le l) l.
Proof.
  induction l as [|x rest IH]; simpl; [reflexivity|].
  rewrite insert_sorted_perm. now constructor.
Qed.

Lemma sort_values_In x l : In x (sort_values le l) <-> In x l.
Proof.
  split; apply Permutation_in;
    [apply sort_values_perm | symmetry; apply sort_values_perm].
Qed.

Lemma sort_values_NoDup l : NoDup l -> NoDup (sort_values le l).
Proof.
  apply Permutation_NoDup. symmetry. apply sort_values_perm.
Qed.
End SortingFacts.

Lemma key_eqb_eq k1 k2 : key_eqb k1 k2 = true <-> k1 = k2.
Proof.
  destruct k1 as [t1 v1], k2 as [t2 v2]. unfold key_eqb. simpl.
  rewrite andb_true_iff, Z.eqb_eq, String.eqb_eq.
  split; [intros [-> ->]; reflexivity | intros [= -> ->]; auto].
Qed.

Lemma key_eqb_refl k : key_eqb k k = true.
Proof. now apply key_eqb_eq. Qed.

Lemma has_key_iff k e : has_key k e = true <-> event_key e = k.
Proof. unfold has_key. apply key_eqb_eq. Qed.

(** ** Groups and their first valid value *)

Lemma first_valid_in l :
  notna (first_valid l) = true -> In (first_valid l) l.
Proof.
  induction l as [|f rest IH]; simpl; [discriminate|].
  destruct (notna f) eqn:E; auto.
Qed.



Lemma group_values_in es k x :
  In x (group_values es k) <-> exists e, In e es /\ event_key e = k /\ value e = x.
Proof.
  unfold group_values. rewrite in_map_iff. split.
  - intros (e & Hv & Hin). apply filter_In in Hin as [Hin Hk].
    exists e. repeat split; auto. now apply has_key_iff.
  - intros (e & Hin & Hk & Hv). exists e. split; [assumption|].
    apply filter_In. split; [assumption | now apply has_key_iff].
Qed.



(** ** The aggregate *)

Lemma groupby_first_in es k x :
  In (k, x) (groupby_first es) <->
  In k (map event_key es) /\ x = first_valid (group_values es k).
Proof.
  unfold groupby_first. rewrite in_map_iff. split.
  - intros (k' & [= -> <-] & Hin).
    apply sort_values_In, nodup_In in Hin. auto.
  - intros [Hin ->]. exists k. split; [reflexivity|].
    now apply sort_values_In, nodup_In.
Qed.

Lemma groupby_first_keys es :
  map fst (groupby_first es) = sort_values key_leb (nodup key_dec (map event_key es)).
Proof.
  unfold groupby_first. rewrite map_map. simpl. apply map_id.
Qed.

Lemma NoDup_map_filter {A B} (f : A -> B) p l :
  NoDup (map f l) -> NoDup (map f (filter p l)).
Proof.
  induction l as [|a rest IH]; simpl; intros H; [constructor|].
  inversion H as [|? ? Hnotin Hnd]; subst.
  destruct (p a); simpl; [|auto].
  constructor; [|auto].
  intros Hin. apply Hnotin. apply in_map_iff in Hin as (b & Hb & Hin).
  apply filter_In in Hin as [Hin _]. apply in_map_iff. now exists b.
Qed.

Lemma agged_keys_nodup es : NoDup (map fst (dropna_rows (groupby_first es))).
Proof.
  unfold dropna_rows. apply NoDup_map_filter. rewrite groupby_first_keys.
  apply sort_values_NoDup, NoDup_nodup.
Qed.

Lemma agged_in es k x :
  In (k, x) (dropna_rows (groupby_first es)) <->
  x = first_valid (group_values es k) /\ notna x = true.
Proof.
  unfold dropna_rows. rewrite filter_In, groupby_first_in. simpl. split.
  - tauto.
  - intros [-> Hx]. repeat split; auto.
    apply first_valid_in in Hx. apply group_values_in in Hx as (e & Hin & Hk & _).
    apply in_map_iff. now exists e.
Qed.

Lemma agg_lookup_in agged k x :
  NoDup (map fst agged) -> In (k, x) agged -> agg_lookup agged k = x.
Proof.
  unfold agg_lookup. induction agged as [|[k0 x0] rest IH]; simpl; [contradiction|].
  intros Hnd Hin. inversion Hnd as [|? ? Hnotin Hnd']; subst.
  destruct (key_eqb k0 k) eqn:E.
  - apply key_eqb_eq in E. subst k0. destruct Hin as [[= ->]|Hin]; [reflexivity|].
    exfalso. apply Hnotin. apply in_map_iff. now exists (k, x).
  - destruct Hin as [[= -> _]|Hin]; [now rewrite key_eqb_refl in E|auto].
Qed.

Lemma agg_lookup_notin agged k :
  ~ In k (map fst agged) -> agg_lookup agged k = NaN.
Proof.
  unfold agg_lookup. induction agged as [|[k0 x0] rest IH]; simpl; [reflexivity|].
  intros H. destruct (key_eqb k0 k) eqn:E.
  - apply key_eqb_eq in E. subst. tauto.
  - apply IH. tauto.
Qed.

(** A cell of the aggregate is the first valid value of its group, null
    when the group has none or does not exist. *)
Lemma agg_lookup_spec es k :
  agg_lookup (dropna_rows (groupby_first es)) k = first_valid (group_values es k).
Proof.
  destruct (notna (first_valid (group_values es k))) eqn:E.
  - apply agg_lookup_in; [apply agged_keys_nodup|]. now apply agged_in.
  - rewrite agg_lookup_notin.
    + unfold notna in E. apply negb_false_iff in E.
      now destruct (first_valid (group_values es k)).
    + intros Hin. apply in_map_iff in Hin as ((k', x) & Hk & Hin). simpl in Hk. subst k'.
      apply agged_in in Hin as [-> Hx]. congruence.
Qed.

(** ** The wide frame *)

Lemma wide_index es :
  DATETIME (convert_long_to_wide es) =
  sort_values Z.leb
    (nodup Z.eq_dec (map (fun r => fst (fst r)) (dropna_rows (groupby_first es)))).
Proof. reflexivity. Qed.

Lemma wide_index_in es t :
  In t (DATETIME (convert_long_to_wide es)) <->
  exists v x, In ((t, v), x) (dropna_rows (groupby_first es)).
Proof.
  rewrite wide_index, sort_values_In, nodup_In, in_map_iff. split.
  - intros ([[t' v] x] & Ht & Hin). simpl in Ht. subst. eauto.
  - intros (v & x & Hin). now exists ((t, v), x).
Qed.


Lemma pivot_columns_in es v :
  In v (pivot_columns es) <->
  exists t x, In ((t, v), x) (dropna_rows (groupby_first es)).
Proof.
  unfold pivot_columns. rewrite sort_values_In, nodup_In, in_map_iff. split.
  - intros ([[t v'] x] & Hv & Hin). simpl in Hv. subst. eauto.
  - intros (t & x & Hin). now exists ((t, v), x).
Qed.


Lemma wide_variables es :
  variables (convert_long_to_wide es) =
  filter (fun c => existsb notna (snd c))
         (map (fun v => (v, pivot_column es v)) (pivot_columns es)).
Proof.
  unfold convert_long_to_wide, dropna_columns, unstack. simpl. f_equal.
  apply map_ext. intros v. f_equal. unfold pivot_column. rewrite wide_index.
  apply map_ext. intros t. apply agg_lookup_spec.
Qed.




Lemma lookup_row_map_inv index f t x :
  lookup_row index (map f index) t = Some x -> x = f t.
Proof.
  induction index as [|i rest IH]; simpl; [discriminate|].
  destruct (Z.eqb_spec i t) as [->|Hne]; [now intros [= <-] | exact IH].
Qed.

Lemma get_variable_filter_map_inv (p : string * list float64 -> bool) h cols v col :
  get_variable v (filter p (map (fun c => (c, h c)) cols)) = Some col -> col = h v.
Proof.
  induction cols as [|a rest IH]; simpl; [discriminate|].
  destruct (p (a, h a)); simpl; [|exact IH].
  destruct (String.eqb_spec v a) as [<-|Hne]; [now intros [= <-] | exact IH].
Qed.

(** A cell of the wide frame always holds the first valid value of its
    key; for a key whose values are all null that is a null hole. *)
Lemma wide_cell_spec es t v x :
  wide_cell (convert_long_to_wide es) t v = Some x ->
  x = first_valid (group_values es (t, v)).
Proof.
  unfold wide_cell. rewrite wide_variables.
  destruct (get_variable v _) as [col|] eqn:G; [|discriminate].
  apply get_variable_filter_map_inv in G. subst col.
  unfold pivot_column. apply lookup_row_map_inv.
Qed.




(** ** Narrowing *)













(* ================================================================== *)
(** ** Polling *)

Lemma strftime_seconds_le t : strftime_seconds t <= t.
Proof.
  unfold strftime_seconds.
  pose proof (Z.mod_pos_bound t 1000000 ltac:(lia)). lia.
Qed.

Lemma select_new_rows_in tbl since e :
  In e (select_new_rows tbl since) <->
  In e tbl /\ strftime_seconds since < datetime e.
Proof.
  unfold select_new_rows. rewrite sort_values_In, filter_In, Z.gtb_lt. tauto.
Qed.

(** Every event strictly newer than the watermark is polled. *)
Lemma select_new_rows_newer tbl since e :
  In e tbl -> since < datetime e -> In e (select_new_rows tbl since).
Proof.
  intros Hin Hlt. apply select_new_rows_in. split; [assumption|].
  pose proof (strftime_seconds_le since). lia.
Qed.

Lemma max_datetime_none tbl : max_datetime tbl = None <-> tbl = [].
Proof.
  destruct tbl as [|e rest]; simpl; [tauto|].
  destruct (max_datetime rest); split; discriminate.
Qed.

Lemma max_datetime_spec tbl m :
  max_datetime tbl = Some m ->
  (exists e, In e tbl /\ datetime e = m) /\ (forall e, In e tbl -> datetime e <= m).
Proof.
  revert m. induction tbl as [|a rest IH]; simpl; intros m; [discriminate|].
  destruct (max_datetime rest) as [m'|] eqn:E.
  - intros [= <-]. destruct (IH m' eq_refl) as [(e & Hin & He) Hle]. split.
    + destruct (Z.max_spec (datetime a) m') as [[_ ->]|[_ ->]]; eauto.
    + intros e' [<-|Hin']; [lia|]. specialize (Hle _ Hin'). lia.
  - intros [= <-]. apply max_datetime_none in E. subst rest. split.
    + eauto.
    + intros e' [<-|[]]. lia.
Qed.

(** ** The watermark *)

Lemma advance_max current candidate : advance current candidate = Z.max current candidate.
Proof. unfold advance. destruct (Z.gtb_spec candidate current); lia. Qed.

Lemma requery_watermark_ge ans current wm :
  requery_watermark ans current = Ok wm -> current <= wm.
Proof.
  destruct ans as [tbl| |]; simpl; try discriminate.
  - destruct (max_datetime tbl); intros [= <-]; [rewrite advance_max|]; lia.
  - intros [= <-]. lia.
Qed.

(** What a cycle can do to the worker: nothing, or record the progress of
    a pass that returned a positive count. *)
Lemma check_and_process_cases w env :
  (fst (fst (check_and_process w env)) = w /\ snd (check_and_process w env) = false) \/
  exists log n a wm,
    process_new_anomalies env (detector w) (last_processed_datetime w) = (log, Ok (n, a)) /\
    0 < n /\
    requery_watermark (input_at_requery env) (last_processed_datetime w) = Ok wm /\
    check_and_process w env =
      (set_progress w wm n a,
       log ++ [Printed (Processed n a (total_anomalies w + a))], true).
Proof.
  unfold check_and_process.
  destruct (get_new_data_from_sql (input_at_check env) (last_processed_datetime w))
    as [[rows|]|e]; simpl; auto.
  destruct (process_new_anomalies env (detector w) (last_processed_datetime w))
    as [log [[n a]|e]] eqn:P; simpl; auto.
  destruct (Z.gtb_spec n 0); simpl; auto.
  destruct (requery_watermark (input_at_requery env) (last_processed_datetime w))
    as [wm|e] eqn:R; simpl; auto.
  right. exists log, n, a, wm. auto.
Qed.

Lemma check_and_process_monotone w env :
  last_processed_datetime w <=
  last_processed_datetime (fst (fst (check_and_process w env))).
Proof.
  destruct (check_and_process_cases w env) as [[-> _]|(log & n & a & wm & _ & _ & R & ->)].
  - lia.
  - simpl. eapply requery_watermark_ge; eauto.
Qed.

Lemma check_and_process_conn w env :
  sql_conn (fst (fst (check_and_process w env))) = sql_conn w.
Proof.
  destruct (check_and_process_cases w env) as [[-> _]|(log & n & a & wm & _ & _ & R & ->)];
    reflexivity.
Qed.

Lemma loop_body_monotone w env :
  last_processed_datetime w <= last_processed_datetime (fst (loop_body w env)).
Proof.
  unfold loop_body.
  pose proof (check_and_process_monotone (count_iteration w) env) as H.
  destruct (check_and_process (count_iteration w) env) as [[w' log] p].
  exact H.
Qed.

Lemma loop_monotone script : forall w,
  last_processed_datetime w <= last_processed_datetime (fst (fst (loop w script))).
Proof.
  induction script as [|[env|env s|s] rest IH]; intros w; simpl.
  - lia.
  - pose proof (loop_body_monotone w env) as H.
    destruct (loop_body w env) as [w1 log1]. specialize (IH w1).
    destruct (loop w1 rest) as [[w2 log2] s]. simpl in *. lia.
  - pose proof (loop_body_monotone w env) as H.
    destruct (loop_body w env) as [w1 log1]. exact H.
  - simpl. lia.
Qed.

(** C3: updating the watermark with a candidate yields the maximum of the
    two, so a stale candidate [T - 1] leaves [T]; the watermark of the
    worker never decreases over a cycle, over any sequence of cycles, nor
    over any run of the loop. *)
Theorem watermark_never_regresses :
  (forall current candidate, advance current candidate = Z.max current candidate) /\
  (forall T, advance T (T - 1) = T) /\
  (forall w env,
     last_processed_datetime w <=
     last_processed_datetime (fst (fst (check_and_process w env)))) /\
  (forall envs w,
     last_processed_datetime w <= last_processed_datetime (run_cycles w envs)) /\
  (forall script w,
     last_processed_datetime w <=
     last_processed_datetime (fst (fst (loop w script)))).
Proof.
  split; [exact advance_max|].
  split; [intros T; rewrite advance_max; lia|].
  split; [exact check_and_process_monotone|].
  split; [|exact loop_monotone].
  induction envs as [|env rest IH]; intros w; simpl; [lia|].
  pose proof (check_and_process_monotone w env).
  specialize (IH (fst (fst (check_and_process w env)))). lia.
Qed.

(* ================================================================== *)
(** ** One pass *)

Lemma detect_and_write_success env det df_long df_wide vars u log n a :
  detect_and_write env det df_long df_wide vars u = (log, Ok (n, a)) ->
  0 < n ->
  exists results r,
    detect_anomalies_multiple det df_wide vars = Ok (Some results) /\
    (r0 <- add_source_file df_long results ;; sanitize r0) = Ok r /\
    write_dataframe env (select_columns r) = Ok true /\
    log = [Wrote (select_columns r) (Ok true)] /\
    n = u.
Proof.
  unfold detect_and_write.
  destruct (detect_anomalies_multiple det df_wide vars) as [[results|]|e];
    try (intros [= <- <- <-]; lia); try discriminate.
  destruct (Nat.eqb (len results) 0); [intros [= <- <- <-]; lia|].
  destruct (r0 <- add_source_file df_long results ;; sanitize r0) as [r|e] eqn:S;
    [|discriminate].
  destruct (write_dataframe env (select_columns r)) as [[|]|e] eqn:W;
    simpl; try discriminate.
  - destruct (sum_is_anomaly r) as [k|e]; simpl; [|discriminate].
    intros [= <- <- <-] _. exists results, r. auto.
  - intros [= <- <- <-]. lia.
Qed.

(** A pass that returns a positive count read rows, found a model
    variable among the columns, got a frame from the detector, and had the
    write of the selected columns return success. *)
Lemma process_success env det since log n a :
  process_new_anomalies env det since = (log, Ok (n, a)) ->
  0 < n ->
  exists df_long results r,
    get_new_data_from_sql (input_at_process env) since = Ok (Some df_long) /\
    available_vars det (convert_long_to_wide df_long) <> [] /\
    detect_anomalies_multiple det (convert_long_to_wide df_long)
      (available_vars det (convert_long_to_wide df_long)) = Ok (Some results) /\
    (r0 <- add_source_file df_long results ;; sanitize r0) = Ok r /\
    write_dataframe env (select_columns r) = Ok true /\
    In (Wrote (select_columns r) (Ok true)) log /\
    (forall batch st, In (Wrote batch st) log -> st = Ok true) /\
    n = Z.of_nat (nunique_datetime (convert_long_to_wide df_long)).
Proof.
  unfold process_new_anomalies.
  destruct (get_new_data_from_sql (input_at_process env) since) as [[df_long|]|e];
    try discriminate; [|intros [= <- <- <-]; lia].
  destruct (available_vars det (convert_long_to_wide df_long)) as [|v vars] eqn:V;
    [intros [= <- <- <-]; lia|].
  destruct (detect_and_write env det df_long (convert_long_to_wide df_long) (v :: vars)
              (Z.of_nat (nunique_datetime (convert_long_to_wide df_long))))
    as [log3 [[n' a']|e]] eqn:D.
  - intros [= <- <- <-] Hn.
    destruct (detect_and_write_success _ _ _ _ _ _ _ _ _ D Hn)
      as (results & r & Hd & Hs & Hw & -> & ->).
    exists df_long, results, r. rewrite V.
    split; [reflexivity|]. split; [discriminate|]. split; [exact Hd|].
    split; [exact Hs|]. split; [exact Hw|]. split; [simpl; auto 6|].
    split; [|reflexivity].
    simpl. intros batch st [H|[H|[H|[H|[]]]]]; try discriminate. now inversion H.
  - intros [= <- <- <-]. lia.
Qed.

(** C2: in a cycle that issued a write which did not return success (it
    returned [False] or raised), or whose call of the detector raised, the
    worker is left exactly as it was, the cycle reports that nothing was
    processed, and a poll with the watermark after the cycle delivers
    every row that a poll with the watermark before the cycle delivers,
    on the same table or on one that has grown. *)
Theorem failed_cycle_keeps_watermark w env :
  (exists batch st,
     In (Wrote batch st) (snd (fst (check_and_process w env))) /\ st <> Ok true) \/
  (exists df_long e,
     get_new_data_from_sql (input_at_process env) (last_processed_datetime w)
       = Ok (Some df_long) /\
     detect_anomalies_multiple (detector w) (convert_long_to_wide df_long)
       (available_vars (detector w) (convert_long_to_wide df_long)) = Raise e) ->
  fst (fst (check_and_process w env)) = w /\
  snd (check_and_process w env) = false /\
  last_processed_datetime (fst (fst (check_and_process w env))) =
    last_processed_datetime w /\
  forall tbl tbl', incl tbl tbl' ->
    incl (select_new_rows tbl (last_processed_datetime w))
         (select_new_rows tbl'
            (last_processed_datetime (fst (fst (check_and_process w env))))).
Proof.
  intros H.
  assert (C : fst (fst (check_and_process w env)) = w /\
              snd (check_and_process w env) = false).
  { destruct (check_and_process_cases w env)
      as [C|(log & n & a & wm & P & Hn & _ & E)]; [exact C|].
    exfalso. destruct (process_success _ _ _ _ _ _ P Hn)
      as (df_long & results & r & Hq & _ & Hd & _ & _ & _ & Hall & _).
    destruct H as [(batch & st & Hin & Hst)|(df_long' & e & Hq' & He)].
    - rewrite E in Hin. simpl in Hin.
      apply in_app_or in Hin as [Hin|[Hin|[]]]; [|discriminate].
      now apply Hst, (Hall batch).
    - rewrite Hq in Hq'. inversion Hq'; subst df_long'. congruence. }
  destruct C as [C1 C2]. rewrite C1. repeat split; auto.
  intros tbl tbl' Hincl e He. apply select_new_rows_in in He as [Hin Hlt].
  apply select_new_rows_in. auto.
Qed.

Lemma failed_cycle_keeps_watermark_witness :
  fst (fst (check_and_process sample_worker env_write_fails)) = sample_worker /\
  incl (select_new_rows sample_table 0)
       (select_new_rows sample_table
          (last_processed_datetime
             (fst (fst (check_and_process sample_worker env_write_fails))))).
Proof.
  assert (H : exists batch st,
             In (Wrote batch st)
                (snd (fst (check_and_process sample_worker env_write_fails))) /\
             st <> Ok true).
  { eexists. exists (Ok false). split; [|discriminate].
    vm_compute. right. right. right. left. reflexivity. }
  destruct (failed_cycle_keeps_watermark sample_worker env_write_fails (or_introl H))
    as (H1 & _ & _ & H4).
  split; [exact H1|]. apply (H4 sample_table sample_table). apply incl_refl.
Defined.

(* ================================================================== *)
(** ** The watermark after a persisted cycle *)

Lemma get_new_data_table tbl since rows :
  get_new_data_from_sql (Table tbl) since = Ok (Some rows) ->
  rows = select_new_rows tbl since /\ rows <> [].
Proof.
  simpl. destruct (select_new_rows tbl since) as [|e rest]; [discriminate|].
  intros [= <-]. split; [reflexivity | discriminate].
Qed.

(** On a table that does not change, the maximum of the table and the
    maximum of the polled rows advance the watermark to the same value. *)
Lemma stable_window_max tbl wm :
  select_new_rows tbl wm <> [] ->
  exists m M,
    max_datetime (select_new_rows tbl wm) = Some m /\
    max_datetime tbl = Some M /\
    Z.max wm M = Z.max wm m.
Proof.
  intros Hne.
  destruct (max_datetime (select_new_rows tbl wm)) as [m|] eqn:Em;
    [|apply max_datetime_none in Em; contradiction].
  destruct (max_datetime_spec _ _ Em) as [(em & Hem & Hm) Hle_m].
  apply select_new_rows_in in Hem as [Hem_tbl Hem_new].
  destruct (max_datetime tbl) as [M|] eqn:EM;
    [|apply max_datetime_none in EM; subst tbl; contradiction].
  destruct (max_datetime_spec _ _ EM) as [(eM & HeM & HM) Hle_M].
  exists m, M. repeat split.
  pose proof (Hle_M _ Hem_tbl) as H1.
  destruct (Z_lt_le_dec wm M) as [Hlt|Hge]; [|lia].
  assert (Hin : In eM (select_new_rows tbl wm))
    by (apply select_new_rows_newer; [assumption | lia]).
  pose proof (Hle_m _ Hin). lia.
Qed.

(** C1 (amended): after a cycle whose pass returned a positive count
    (the write returned success), the watermark is the maximum of its
    previous value and the maximum timestamp of the whole input table as
    read by the query made after the write; it keeps its previous value
    when that query returns nothing or fails.  When the input table is
    the same at the three queries of the cycle, this is the maximum of
    the previous watermark and the maximum timestamp of the polled
    rows. *)
Theorem watermark_after_persisted_cycle w env log n a rows :
  get_new_data_from_sql (input_at_check env) (last_processed_datetime w) = Ok (Some rows) ->
  process_new_anomalies env (detector w) (last_processed_datetime w) = (log, Ok (n, a)) ->
  0 < n ->
  let w' := fst (fst (check_and_process w env)) in
  (forall tbl, input_at_requery env = Table tbl ->
     last_processed_datetime w' =
       match max_datetime tbl with
       | Some new_last => Z.max (last_processed_datetime w) new_last
       | None => last_processed_datetime w
       end) /\
  (input_at_requery env = ReturnsNone \/ input_at_requery env = QueryRaises ->
     last_processed_datetime w' = last_processed_datetime w) /\
  (forall tbl,
     input_at_check env = Table tbl ->
     input_at_process env = Table tbl ->
     input_at_requery env = Table tbl ->
     exists m,
       max_datetime (select_new_rows tbl (last_processed_datetime w)) = Some m /\
       last_processed_datetime w' = Z.max (last_processed_datetime w) m).
Proof.
  intros Hcheck Hpass Hn w'.
  assert (Hw' : forall tbl, input_at_requery env = Table tbl ->
     last_processed_datetime w' =
       match max_datetime tbl with
       | Some new_last => Z.max (last_processed_datetime w) new_last
       | None => last_processed_datetime w
       end).
  { intros tbl Hq. subst w'. unfold check_and_process.
    rewrite Hcheck, Hpass. apply Z.gtb_lt in Hn. rewrite Hn, Hq. simpl.
    destruct (max_datetime tbl); simpl; [apply advance_max | reflexivity]. }
  split; [exact Hw'|]. split.
  - intros Hq. subst w'. unfold check_and_process.
    rewrite Hcheck, Hpass. apply Z.gtb_lt in Hn. rewrite Hn.
    destruct Hq as [-> | ->]; reflexivity.
  - intros tbl Hc _ Hq. rewrite (Hw' tbl Hq).
    rewrite Hc in Hcheck. apply get_new_data_table in Hcheck as [-> Hne].
    destruct (stable_window_max tbl (last_processed_datetime w) Hne)
      as (m & M & Hm & HM & E).
    exists m. rewrite HM. auto.
Qed.

Lemma watermark_after_persisted_cycle_witness :
  last_processed_datetime (fst (fst (check_and_process sample_worker env_stable)))
  = 30000000.
Proof.
  destruct (watermark_after_persisted_cycle sample_worker env_stable
              (fst (process_new_anomalies env_stable sample_detector 0)) 3 1
              (select_new_rows sample_table 0)
              eq_refl eq_refl eq_refl) as (_ & _ & H).
  destruct (H sample_table eq_refl eq_refl eq_refl) as (m & Hm & ->).
  vm_compute in Hm. inversion Hm. reflexivity.
Defined.

(** C1 as the specification states it fails: an event inserted while the cycle runs is
    not among the rows the cycle processed, whose maximum timestamp is
    30 s, yet the watermark after the cycle is the timestamp of that
    event, 40 s, and the next poll no longer delivers it. *)
Lemma watermark_beyond_window_counterexample :
  let w' := fst (fst (check_and_process sample_worker env_late_arrival)) in
  snd (check_and_process sample_worker env_late_arrival) = true /\
  get_new_data_from_sql (input_at_process env_late_arrival) 0
    = Ok (Some (select_new_rows sample_table 0)) /\
  max_datetime (select_new_rows sample_table 0) = Some 30000000 /\
  ~ In late_event (select_new_rows sample_table 0) /\
  last_processed_datetime w' = 40000000 /\
  last_processed_datetime w' <> 30000000 /\
  select_new_rows (sample_table ++ [late_event]) (last_processed_datetime w') = [].
Proof.
  cbv zeta. repeat split; try reflexivity.
  - intros H. apply select_new_rows_in in H as [H _]. simpl in H.
    repeat (destruct H as [H|H]; [discriminate H|]). exact H.
  - vm_compute. discriminate.
Qed.

(* ================================================================== *)
(** ** A cycle with no common variable *)

Lemma detect_and_write_log env det df_long df_wide vars u x :
  In x (fst (detect_and_write env det df_long df_wide vars u)) ->
  exists batch st, x = Wrote batch st.
Proof.
  unfold detect_and_write.
  destruct (detect_anomalies_multiple det df_wide vars) as [[results|]|e];
    simpl; try contradiction.
  destruct (Nat.eqb (len results) 0); simpl; try contradiction.
  destruct (r <- add_source_file df_long results ;; sanitize r) as [r|e];
    simpl; try contradiction.
  intros [<-|[]]. eauto.
Qed.


Lemma check_and_process_log w env x :
  In x (snd (fst (check_and_process w env))) ->
  In x (fst (process_new_anomalies env (detector w) (last_processed_datetime w))) \/
  (exists e, x = LoggedError e) \/
  (exists n a t, x = Printed (Processed n a t)).
Proof.
  unfold check_and_process.
  destruct (get_new_data_from_sql (input_at_check env) (last_processed_datetime w))
    as [[rows|]|e]; simpl.
  - destruct (process_new_anomalies env (detector w) (last_processed_datetime w))
      as [log [[n a]|e]]; simpl.
    + destruct (n >? 0); simpl; [|auto].
      destruct (requery_watermark (input_at_requery env) (last_processed_datetime w));
        simpl; intros H; apply in_app_or in H as [H|[<-|[]]]; eauto 6.
    + intros H. apply in_app_or in H as [H|[<-|[]]]; eauto.
  - contradiction.
  - intros [<-|[]]. eauto.
Qed.




(* ================================================================== *)
(** ** The run loop and the connection *)

Lemma initialize_ok_conn init w0 :
  initialize init = InitOk w0 -> sql_conn w0 = Some Connected.
Proof.
  unfold initialize.
  destruct (models_on_disk init); simpl; [|discriminate].
  destruct (connect init); simpl; [|discriminate].
  destruct (bootstrap init) as [det|e]; [|discriminate].
  destruct (last_ds init) as [last|e]; [|discriminate].
  now intros [= <-].
Qed.

Lemma loop_body_conn w env : sql_conn (fst (loop_body w env)) = sql_conn w.
Proof.
  unfold loop_body.
  pose proof (check_and_process_conn (count_iteration w) env) as H.
  destruct (check_and_process (count_iteration w) env) as [[w' log] p].
  exact H.
Qed.

Lemma loop_conn script : forall w, sql_conn (fst (fst (loop w script))) = sql_conn w.
Proof.
  induction script as [|[env|env s|s] rest IH]; intros w; simpl.
  - reflexivity.
  - pose proof (loop_body_conn w env) as H.
    destruct (loop_body w env) as [w1 log1]. specialize (IH w1).
    destruct (loop w1 rest) as [[w2 log2] s]. simpl in *. congruence.
  - pose proof (loop_body_conn w env) as H.
    destruct (loop_body w env) as [w1 log1]. exact H.
  - reflexivity.
Qed.

(** The loop ends exactly when the script holds a turn in which a signal
    is raised. *)
Lemma loop_ends script : forall w,
  snd (loop w script) <> None <-> existsb raises script = true.
Proof.
  induction script as [|[env|env s|s] rest IH]; intros w; simpl.
  - split; [congruence | discriminate].
  - destruct (loop_body w env) as [w1 log1]. specialize (IH w1).
    destruct (loop w1 rest) as [[w2 log2] s]. exact IH.
  - destruct (loop_body w env) as [w1 log1]. simpl. split; [reflexivity | discriminate].
  - split; [reflexivity | discriminate].
Qed.

(** C10: whenever [run] ends after the loop was entered, by the handled
    keyboard interrupt or by an exception that propagates, the connection
    that initialization established is closed, and closing it is the last
    thing the run does. *)
Theorem connection_closed_on_exit init script :
  status (run init script) = ReturnedAfterInterrupt \/
  status (run init script) = ExceptionPropagated ->
  final_conn (run init script) = Some Closed /\
  exists log, trace (run init script) = log ++ [Disconnected; Printed ConnectionClosed].
Proof.
  unfold run.
  destruct (initialize init) as [w0|conn] eqn:I; simpl;
    [|intros [H|H]; discriminate].
  pose proof (loop_conn script w0) as L.
  rewrite (initialize_ok_conn _ _ I) in L.
  destruct (loop w0 script) as [[w1 log] [s|]]; simpl in *;
    [|intros [H|H]; discriminate].
  intros _. unfold finally_clause. rewrite L. simpl.
  split; [reflexivity|].
  exists (log ++ match s with
                 | KeyboardInterrupt => [Printed StoppedByUser]
                 | OtherException => []
                 end).
  now rewrite <- app_assoc.
Qed.

Lemma connection_closed_on_exit_witness :
  final_conn (run sample_init [Completes env_stable;
                               RaisedAsleep env_write_fails KeyboardInterrupt])
  = Some Closed.
Proof.
  exact (proj1 (connection_closed_on_exit sample_init
                  [Completes env_stable; RaisedAsleep env_write_fails KeyboardInterrupt]
                  (or_introl eq_refl))).
Defined.

(** When initialization succeeded and some turn raises, the run ends in
    one of the two ways above. *)
Lemma run_ends_on_signal init script w0 :
  initialize init = InitOk w0 ->
  existsb raises script = true ->
  status (run init script) = ReturnedAfterInterrupt \/
  status (run init script) = ExceptionPropagated.
Proof.
  intros I Hs. unfold run. rewrite I.
  apply (loop_ends script w0) in Hs.
  destruct (loop w0 script) as [[w1 log] [s|]]; simpl in *; [|congruence].
  destruct (finally_clause w1). destruct s; simpl; auto.
Qed.

(* ================================================================== *)
(** * Further properties of the code *)

(** ** What the sanitizer leaves alone *)

Lemma astype_int_len c c' : astype_int c = Ok c' -> col_len c' = col_len c.
Proof.
  destruct c; simpl; try discriminate; try (intros [= <-]; simpl; now rewrite ?length_map).
  destruct (forallb isfinite fs); [|discriminate].
  intros [= <-]. simpl. now rewrite length_map.
Qed.

Lemma fillna_clip_len c c' : fillna_clip c = Ok c' -> col_len c' = col_len c.
Proof.
  destruct c; unfold fillna_clip; try discriminate; intros [= <-]; simpl;
    now rewrite ?length_map.
Qed.

Lemma replace_inf_col_len c : col_len (replace_inf_col c) = col_len c.
Proof. destruct c; simpl; now rewrite ?length_map. Qed.

Lemma sanitize_steps_len col f c c' :
  In (col, f) sanitize_steps -> f c = Ok c' -> col_len c' = col_len c.
Proof.
  unfold sanitize_steps. simpl.
  intros [H|[H|[H|[H|[H|[]]]]]]; inversion H; subst; clear H;
    try apply astype_int_len; try apply fillna_clip_len.
  intros E. apply fillna_clip_len in E. now rewrite replace_inf_col_len in E.
Qed.

(** X1: a successful run of the sanitizer keeps the columns of the frame
    and their order, keeps every column other than the three flags and
    the two scores exactly as it was, and keeps the number of cells of
    every column: it never adds, drops or reorders a column or a row. *)
Theorem sanitize_touches_only_its_columns results r :
  sanitize results = Ok r ->
  labels r = labels results /\
  (forall col, ~ In col sanitized_cols -> get_col col r = get_col col results) /\
  (forall col c c', get_col col results = Some c -> get_col col r = Some c' ->
                    col_len c' = col_len c).
Proof.
  intros H. pose proof H as H'. rewrite sanitize_as_steps in H'.
  split; [eapply run_steps_labels; eauto|]. split.
  - intros col Hnot.
    pose proof (run_steps_get _ _ _ sanitize_steps_nodup H' col) as G.
    now rewrite (step_for_none _ _ Hnot) in G.
  - intros col c c' G G'.
    pose proof (run_steps_get _ _ _ sanitize_steps_nodup H' col) as S.
    rewrite G in S. destruct (step_for col sanitize_steps) as [f|] eqn:F.
    + destruct S as (c'' & Hf & Hg). rewrite Hg in G'. inversion G'; subst c''.
      apply (sanitize_steps_len col f c c'); [now apply step_for_in | exact Hf].
    + congruence.
Qed.

Lemma sanitize_touches_only_its_columns_witness :
  exists r, sanitize sample_results = Ok r /\
            get_col "y" r = Some (FloatCol [Fin 10; Fin 12; Fin 11]).
Proof.
  eexists. split; [reflexivity|].
  rewrite (proj1 (proj2 (sanitize_touches_only_its_columns sample_results _ eq_refl)) "y").
  - reflexivity.
  - unfold sanitized_cols, sanitize_steps. simpl. intuition discriminate.
Defined.

(** ** The batch that is written *)

Lemma select_from_get cols results col c :
  get_col col
    (flat_map (fun l => match get_col l results with
                        | Some c0 => [(l, c0)]
                        | None => []
                        end) cols) = Some c ->
  In col cols /\ get_col col results = Some c.
Proof.
  induction cols as [|l rest IH]; simpl; [discriminate|].
  destruct (get_col l results) as [c0|] eqn:G; simpl.
  - destruct (String.eqb_spec col l) as [->|Hne].
    + intros [= <-]. auto.
    + intros H. destruct (IH H). auto.
  - intros H. destruct (IH H). auto.
Qed.

Lemma select_from_find cols results col c :
  In col cols -> get_col col results = Some c ->
  get_col col
    (flat_map (fun l => match get_col l results with
                        | Some c0 => [(l, c0)]
                        | None => []
                        end) cols) = Some c.
Proof.
  induction cols as [|l rest IH]; simpl; [contradiction|].
  intros Hin G. destruct (String.eqb_spec col l) as [->|Hne].
  - rewrite G. simpl. now rewrite String.eqb_refl.
  - destruct Hin as [->|Hin]; [contradiction|].
    destruct (get_col l results); simpl; [|auto].
    destruct (String.eqb_spec col l); [contradiction|auto].
Qed.

Lemma select_from_labels cols results :
  labels (flat_map (fun l => match get_col l results with
                             | Some c0 => [(l, c0)]
                             | None => []
                             end) cols)
  = filter (fun l => has_col l results) cols.
Proof.
  induction cols as [|l rest IH]; simpl; [reflexivity|].
  destruct (get_col l results) as [c0|] eqn:G.
  - assert (H : has_col l results = true) by (apply has_col_get; congruence).
    rewrite H. simpl. f_equal. exact IH.
  - apply has_col_false in G. rewrite G. exact IH.
Qed.

(** X2: the batch handed to the result sink holds exactly those of the
    thirteen output columns that the frame has, in the fixed output
    order whatever the order in the frame, each with the cells it has in
    the frame; any other column of the frame is left out. *)
Theorem batch_is_the_known_columns results :
  labels (select_columns results)
    = filter (fun col => has_col col results) columns_to_write /\
  (forall col c, get_col col (select_columns results) = Some c ->
     In col columns_to_write /\ get_col col results = Some c) /\
  (forall col c, In col columns_to_write -> get_col col results = Some c ->
     get_col col (select_columns results) = Some c).
Proof.
  unfold select_columns. split; [apply select_from_labels|]. split.
  - intros col c. apply select_from_get.
  - intros col c. apply select_from_find.
Qed.

(** ** The number of anomalies *)

Lemma sum_b2z bs :
  fold_right Z.add 0 (map b2z bs) = Z.of_nat (count_occ bool_dec bs true).
Proof.
  induction bs as [|b bs IH]; [reflexivity|].
  cbn [map fold_right]. rewrite IH. destruct b; unfold b2z.
  - rewrite count_occ_cons_eq by reflexivity. lia.
  - rewrite count_occ_cons_neq by discriminate. lia.
Qed.

Lemma count_occ_le bs : (count_occ bool_dec bs true <= List.length bs)%nat.
Proof. induction bs as [|[|] bs IH]; simpl; lia. Qed.

(** X3: when the detector returns a frame whose [is_anomaly] column is of
    dtype bool and the pass succeeds, the number of anomalies the pass
    returns is the number of true flags of that column: it lies between
    0 and the number of scored points. *)
Theorem anomalies_are_the_true_flags env det df_long df_wide vars u log n a results bs :
  detect_anomalies_multiple det df_wide vars = Ok (Some results) ->
  get_col "is_anomaly" results = Some (BoolCol bs) ->
  detect_and_write env det df_long df_wide vars u = (log, Ok (n, a)) ->
  0 < n ->
  a = Z.of_nat (count_occ bool_dec bs true) /\
  0 <= a <= Z.of_nat (List.length bs).
Proof.
  intros Hd Hb Hp Hn.
  assert (A : a = Z.of_nat (count_occ bool_dec bs true)).
  { unfold detect_and_write in Hp. rewrite Hd in Hp.
    destruct (Nat.eqb (len results) 0); [inversion Hp; lia|].
    destruct (add_source_file df_long results) as [r0|e] eqn:S; simpl in Hp;
      [|discriminate].
    destruct (sanitize r0) as [r|e] eqn:R; [|discriminate].
    assert (G : get_col "is_anomaly" r = Some (IntCol (map b2z bs))).
    { pose proof (sanitize_get _ _ "is_anomaly" astype_int R
                    (bool_cols_steps _ ltac:(simpl; auto))) as G.
      rewrite (add_source_file_other _ _ _ _ S) in G by discriminate.
      rewrite Hb in G. destruct G as (c' & Hc & ->). simpl in Hc. now inversion Hc. }
    destruct (write_dataframe env (select_columns r)) as [[|]|e];
      simpl in Hp; try discriminate; [|inversion Hp; lia].
    unfold sum_is_anomaly in Hp. rewrite G in Hp. simpl in Hp.
    inversion Hp. apply sum_b2z. }
  split; [exact A|]. subst a. pose proof (count_occ_le bs). lia.
Qed.

Lemma anomalies_are_the_true_flags_witness :
  snd (detect_and_write env_stable sample_detector sample_table
         (convert_long_to_wide sample_table) ["A"] 3) = Ok (3, 1).
Proof.
  pose proof (anomalies_are_the_true_flags env_stable sample_detector sample_table
                (convert_long_to_wide sample_table) ["A"] 3
                [Wrote (select_columns
                          (set_col "source_file"
                             (ObjectCol [Some "f1"; Some "f1"; Some "f1"])
                             (set_col "prediction_error_pct"
                                (FloatCol [Fin 0; Fin 0; Fin 2])
                                (set_col "anomaly_score"
                                   (FloatCol [Fin (99999 # 100); Fin 0; Fin 3])
                                   (set_col "is_anomaly" (IntCol [1; 0; 0])
                                      (set_col "high_residual" (IntCol [0; 0; 0])
                                         (set_col "outside_interval" (IntCol [1; 0; 0])
                                            sample_results)))))))
                       (Ok true)]
                3 1 sample_results [true; false; false]
                eq_refl eq_refl eq_refl eq_refl) as [_ _].
  reflexivity.
Defined.

(** ** Where the source of a record comes from *)

Lemma row_sources_nth df_long : forall ds vs i t v,
  nth_error ds i = Some t -> nth_error vs i = Some (Some v) ->
  nth_error (row_sources df_long ds vs) i = Some (source_file_of df_long (t, v)).
Proof.
  induction ds as [|d ds IH]; intros vs i t v Hd Hv.
  - destruct i; discriminate.
  - destruct vs as [|[v0|] vs]; [destruct i; discriminate| |].
    + destruct i as [|i]; simpl in *.
      * now inversion Hd; inversion Hv.
      * now apply IH.
    + destruct i as [|i]; simpl in *; [discriminate|]. now apply IH.
Qed.

(** X4: a [source_file] column that the detector returned is left as it
    is.  When the detector returned none, every scored row (ds, variable)
    gets the first non-null source among the input rows of that
    timestamp and variable, null when all of them are null, and the
    literal 'unknown' when no input row has that timestamp and variable:
    a source other than these is never attached. *)
Theorem source_file_is_from_the_input df_long results :
  (has_col "source_file" results = true ->
     add_source_file df_long results = Ok results) /\
  (forall ds vs,
     has_col "source_file" results = false ->
     get_col "ds" results = Some (TimeCol ds) ->
     get_col "variable" results = Some (ObjectCol vs) ->
     exists srcs,
       add_source_file df_long results
         = Ok (set_col "source_file" (ObjectCol srcs) results) /\
       forall i t v,
         nth_error ds i = Some t -> nth_error vs i = Some (Some v) ->
         exists src,
           nth_error srcs i = Some src /\
           ((src = first_some (map source_file (filter (has_key (t, v)) df_long)) /\
             exists e, In e df_long /\ event_key e = (t, v))
            \/ (src = Some "unknown" /\
                forall e, In e df_long -> event_key e <> (t, v)))).
Proof.
  split.
  - unfold add_source_file. now intros ->.
  - intros ds vs Hno Hds Hvs. unfold add_source_file. rewrite Hno, Hds, Hvs.
    eexists. split; [reflexivity|].
    intros i t v Hd Hv. rewrite (row_sources_nth _ _ _ _ _ _ Hd Hv).
    unfold source_file_of.
    destruct (filter (has_key (t, v)) df_long) as [|e0 grp] eqn:F.
    + exists (Some "unknown"). split; [reflexivity|]. right. split; [reflexivity|].
      intros e Hin Hk.
      assert (In e (filter (has_key (t, v)) df_long))
        by (apply filter_In; split; [assumption | now apply has_key_iff]).
      rewrite F in *. contradiction.
    + eexists. split; [reflexivity|]. left. split; [reflexivity|].
      exists e0.
      assert (Hin : In e0 (filter (has_key (t, v)) df_long)) by (rewrite F; now left).
      apply filter_In in Hin as [Hin Hk]. split; [assumption | now apply has_key_iff].
Qed.

(* ================================================================== *)
(** ** Cycles that do nothing, and cycles that count *)

Lemma select_new_rows_nil tbl since :
  (forall e, In e tbl -> datetime e <= strftime_seconds since) ->
  select_new_rows tbl since = [].
Proof.
  intros H. destruct (select_new_rows tbl since) as [|e rest] eqn:E; [reflexivity|].
  assert (Hin : In e (select_new_rows tbl since)) by (rewrite E; now left).
  apply select_new_rows_in in Hin as [Hin Hlt]. specialize (H e Hin). lia.
Qed.

(** X5: when the first query of a cycle returns nothing, or the input
    table holds no row later than the watermark cut to the whole second,
    the cycle ends there: the worker is unchanged, the detector is not
    called, nothing is written or printed, and the cycle reports that
    nothing was processed. *)
Theorem idle_cycle_does_nothing w env :
  (input_at_check env = ReturnsNone \/
   exists tbl, input_at_check env = Table tbl /\
     forall e, In e tbl ->
       datetime e <= strftime_seconds (last_processed_datetime w)) ->
  check_and_process w env = (w, [], false).
Proof.
  intros [H|(tbl & H & Hold)]; unfold check_and_process; rewrite H; simpl.
  - reflexivity.
  - now rewrite (select_new_rows_nil _ _ Hold).
Qed.

Lemma idle_cycle_does_nothing_witness :
  check_and_process sample_worker
    (mkEnv ReturnsNone (Table sample_table) (fun _ => Ok true) (Table sample_table))
  = (sample_worker, [], false).
Proof.
  exact (idle_cycle_does_nothing sample_worker
           (mkEnv ReturnsNone (Table sample_table) (fun _ => Ok true) (Table sample_table))
           (or_introl eq_refl)).
Defined.

Lemma first_valid_notna l :
  (exists x, In x l /\ notna x = true) -> notna (first_valid l) = true.
Proof.
  induction l as [|f rest IH]; simpl; intros (x & Hin & Hx); [contradiction|].
  destruct (notna f) eqn:E; [assumption|].
  destruct Hin as [->|Hin]; [congruence|]. apply IH. eauto.
Qed.

(** The rows of the wide frame are the timestamps that have a non-null
    value in the input. *)
Lemma wide_index_events es t :
  In t (DATETIME (convert_long_to_wide es)) <->
  exists e, In e es /\ datetime e = t /\ notna (value e) = true.
Proof.
  rewrite wide_index_in. split.
  - intros (v & x & Hin). apply agged_in in Hin as [-> Hx].
    apply first_valid_in in Hx as Hin. apply group_values_in in Hin as (e & Hin & Hk & Hv).
    exists e. unfold event_key in Hk. inversion Hk. repeat split; auto. congruence.
  - intros (e & Hin & <- & Hx).
    exists (variable_name e), (first_valid (group_values es (event_key e))).
    apply agged_in. split; [reflexivity|].
    apply first_valid_notna. exists (value e). split; [|assumption].
    apply group_values_in. eauto.
Qed.





(** X7: when the write of a cycle returned success and the query for the
    maximum timestamp that follows it raises, the cycle ends in its
    error branch: the batch has been written, but the watermark and the
    counters keep their values and the cycle reports that nothing was
    processed, so the next poll reads the same rows again. *)
Theorem requery_failure_after_write w env rows log n a :
  get_new_data_from_sql (input_at_check env) (last_processed_datetime w) = Ok (Some rows) ->
  process_new_anomalies env (detector w) (last_processed_datetime w) = (log, Ok (n, a)) ->
  0 < n ->
  input_at_requery env = QueryRaises ->
  check_and_process w env = (w, log ++ [LoggedError SQLError], false) /\
  exists batch, In (Wrote batch (Ok true)) log.
Proof.
  intros Hc Hp Hn Hq. split.
  - unfold check_and_process. rewrite Hc, Hp. apply Z.gtb_lt in Hn.
    now rewrite Hn, Hq.
  - destruct (process_success _ _ _ _ _ _ Hp Hn)
      as (df_long & results & r & _ & _ & _ & _ & _ & Hin & _).
    eauto.
Qed.

Lemma requery_failure_after_write_witness :
  fst (fst (check_and_process sample_worker
              (mkEnv (Table sample_table) (Table sample_table)
                     (fun _ => Ok true) QueryRaises))) = sample_worker.
Proof.
  pose (env := mkEnv (Table sample_table) (Table sample_table)
                     (fun _ => Ok true) QueryRaises).
  pose proof (proj1 (requery_failure_after_write sample_worker env
                       (select_new_rows sample_table 0)
                       (fst (process_new_anomalies env sample_detector 0)) 3 1
                       eq_refl eq_refl eq_refl eq_refl)) as H.
  change (fst (fst (check_and_process sample_worker env)) = sample_worker).
  now rewrite H.
Defined.

(** X8: a detector output that has no [is_anomaly] column is sanitized,
    selected and written; the count of anomalies that follows the
    successful write then fails on the missing column, so the pass logs
    the error and the cycle leaves the watermark and the counters as they
    were and reports that nothing was processed. *)
Theorem missing_flag_column_cycle w env rows df_long results r0 r :
  get_new_data_from_sql (input_at_check env) (last_processed_datetime w) = Ok (Some rows) ->
  get_new_data_from_sql (input_at_process env) (last_processed_datetime w)
    = Ok (Some df_long) ->
  available_vars (detector w) (convert_long_to_wide df_long) <> [] ->
  detect_anomalies_multiple (detector w) (convert_long_to_wide df_long)
    (available_vars (detector w) (convert_long_to_wide df_long)) = Ok (Some results) ->
  len results <> 0%nat ->
  get_col "is_anomaly" results = None ->
  add_source_file df_long results = Ok r0 ->
  sanitize r0 = Ok r ->
  write_dataframe env (select_columns r) = Ok true ->
  fst (fst (check_and_process w env)) = w /\
  snd (check_and_process w env) = false /\
  In (Wrote (select_columns r) (Ok true)) (snd (fst (check_and_process w env))) /\
  In (LoggedError KeyError) (snd (fst (check_and_process w env))).
Proof.
  intros Hc Hq Hv Hd Hlen Hno Hs Hr Hw.
  pose proof (missing_is_anomaly_after_write env (detector w) df_long
                (convert_long_to_wide df_long)
                (available_vars (detector w) (convert_long_to_wide df_long))
                (Z.of_nat (nunique_datetime (convert_long_to_wide df_long)))
                results r0 r Hd Hlen Hs Hr Hno Hw) as D.
  unfold check_and_process, process_new_anomalies. rewrite Hc, Hq.
  destruct (available_vars (detector w) (convert_long_to_wide df_long)) as [|v vars];
    [contradiction|].
  rewrite D. simpl. repeat split; auto 8.
Qed.

Lemma missing_flag_column_cycle_witness :
  fst (fst (check_and_process flagless_worker env_stable)) = flagless_worker.
Proof.
  refine (proj1 (missing_flag_column_cycle flagless_worker env_stable
                   (select_new_rows sample_table 0) (select_new_rows sample_table 0)
                   flagless_results _ _ eq_refl eq_refl _ eq_refl _ eq_refl
                   eq_refl eq_refl eq_refl)).
  - vm_compute. discriminate.
  - simpl. lia.
Defined.

(* ================================================================== *)
(** ** The poll and the fraction of a second *)

(** X9: the poll compares with the watermark cut to the whole second.
    With a watermark on a whole second it delivers exactly the rows of
    the table strictly later than the watermark; with a watermark that
    has a fraction of a second it also delivers the rows from the start
    of that second on, among them any row at the watermark itself, which
    a cycle has already processed. *)
Theorem poll_cuts_the_watermark_to_the_second tbl since e :
  In e tbl ->
  (since mod 1000000 = 0 ->
     (In e (select_new_rows tbl since) <-> since < datetime e)) /\
  (since mod 1000000 <> 0 ->
     (since - since mod 1000000 < datetime e <= since ->
        In e (select_new_rows tbl since)) /\
     (datetime e = since ->
        get_new_data_from_sql (Table tbl) since <> Ok None)).
Proof.
  intros Hin. split.
  - intros H0. rewrite select_new_rows_in. unfold strftime_seconds. rewrite H0.
    split; [intros [_ H]; lia | intros H; split; [assumption | lia]].
  - intros Hfrac.
    assert (P : since - since mod 1000000 < datetime e <= since ->
                In e (select_new_rows tbl since)).
    { intros H. apply select_new_rows_in. split; [assumption|].
      unfold strftime_seconds. lia. }
    split; [exact P|].
    intros He. simpl.
    pose proof (Z.mod_pos_bound since 1000000 ltac:(lia)) as B.
    destruct (select_new_rows tbl since) as [|x rest] eqn:E; [|discriminate].
    exfalso. rewrite <- E in P. rewrite E in P. apply P. lia.
Qed.

Lemma poll_cuts_the_watermark_to_the_second_witness :
  In (mkEvent 30500000 "A" (Fin 1) None)
     (select_new_rows [mkEvent 30500000 "A" (Fin 1) None] 30500000).
Proof.
  apply (proj1 (proj2 (poll_cuts_the_watermark_to_the_second
                         [mkEvent 30500000 "A" (Fin 1) None] 30500000
                         (mkEvent 30500000 "A" (Fin 1) None)
                         (or_introl eq_refl))
                 ltac:(vm_compute; discriminate))).
  simpl. vm_compute. split; [reflexivity | discriminate].
Defined.

(* ================================================================== *)
(** ** Order *)

Section OrderFacts.
Context {A : Type} (le : A -> A -> bool).
Hypothesis le_total : forall a b, le a b = true \/ le b a = true.
Hypothesis le_trans : forall a b c, le a b = true -> le b c = true -> le a c = true.
Hypothesis le_antisym : forall a b, le a b = true -> le b a = true -> a = b.




End OrderFacts.











(* ================================================================== *)
(** ** The frame a pivot produces *)

Lemma filter_all {A} (p : A -> bool) l :
  (forall x, In x l -> p x = true) -> filter p l = l.
Proof.
  induction l as [|a rest IH]; simpl; intros H; [reflexivity|].
  rewrite (H a (or_introl eq_refl)). f_equal. apply IH. auto.
Qed.

Lemma pivot_column_valid es v :
  In v (pivot_columns es) -> existsb notna (pivot_column es v) = true.
Proof.
  intros Hv. apply pivot_columns_in in Hv as (t & x & Hin).
  assert (Ht : In t (DATETIME (convert_long_to_wide es)))
    by (apply wide_index_in; eauto).
  apply agged_in in Hin as [-> Hx].
  apply existsb_exists. exists (first_valid (group_values es (t, v))).
  split; [|assumption]. unfold pivot_column. apply in_map_iff. now exists t.
Qed.

(** No column of the unstacked aggregate holds only nulls: the last step
    of the pivot removes nothing. *)
Lemma wide_variables_all es :
  variables (convert_long_to_wide es) =
  map (fun v => (v, pivot_column es v)) (pivot_columns es).
Proof.
  rewrite wide_variables. apply filter_all.
  intros c Hc. apply in_map_iff in Hc as (v & <- & Hv). simpl.
  now apply pivot_column_valid.
Qed.


Lemma pivot_columns_events es v :
  In v (pivot_columns es) <->
  exists e, In e es /\ variable_name e = v /\ notna (value e) = true.
Proof.
  rewrite pivot_columns_in. split.
  - intros (t & x & Hin). apply agged_in in Hin as [-> Hx].
    apply first_valid_in in Hx as Hin. apply group_values_in in Hin as (e & Hin & Hk & Hv).
    exists e. unfold event_key in Hk. inversion Hk. repeat split; auto. congruence.
  - intros (e & Hin & <- & Hx).
    exists (datetime e), (first_valid (group_values es (event_key e))).
    apply agged_in. split; [reflexivity|].
    apply first_valid_notna. exists (value e). split; [|assumption].
    apply group_values_in. eauto.
Qed.



(** X13: the wide frame is empty, with no row and no variable column,
    exactly when every value of the input is null; this includes the
    empty input. *)
Theorem pivot_is_empty_iff_all_null es :
  forallb (fun e => isna (value e)) es = true <->
  convert_long_to_wide es = mkWide [] [].
Proof.
  split.
  - intros Hall.
    assert (Hno : forall e, In e es -> notna (value e) = false).
    { intros e Hin. rewrite forallb_forall in Hall. unfold notna. now rewrite Hall. }
    assert (Hi : DATETIME (convert_long_to_wide es) = []).
    { destruct (DATETIME (convert_long_to_wide es)) as [|t rest] eqn:E; [reflexivity|].
      assert (Ht : In t (DATETIME (convert_long_to_wide es))) by (rewrite E; now left).
      apply wide_index_events in Ht as (e & Hin & _ & Hx).
      rewrite (Hno e Hin) in Hx. discriminate. }
    assert (Hc : pivot_columns es = []).
    { destruct (pivot_columns es) as [|v rest] eqn:E; [reflexivity|].
      assert (Hv : In v (pivot_columns es)) by (rewrite E; now left).
      apply pivot_columns_events in Hv as (e & Hin & _ & Hx).
      rewrite (Hno e Hin) in Hx. discriminate. }
    pose proof (wide_variables_all es) as V. rewrite Hc in V. cbn [map] in V.
    revert Hi V. generalize (convert_long_to_wide es).
    intros [idx vars]. cbn [DATETIME variables]. now intros -> ->.
  - intros E. apply forallb_forall. intros e Hin.
    destruct (isna (value e)) eqn:N; [reflexivity|].
    assert (Ht : In (datetime e) (DATETIME (convert_long_to_wide es))).
    { apply wide_index_events. exists e. unfold notna. rewrite N. auto. }
    rewrite E in Ht. contradiction.
Qed.

(* ================================================================== *)
(** ** Narrowing a wide frame *)







(** ** Widening what was narrowed *)








(* ================================================================== *)
(** ** Counters of the loop *)

Lemma check_and_process_frame w env :
  iterations (fst (fst (check_and_process w env))) = iterations w /\
  detector (fst (fst (check_and_process w env))) = detector w /\
  total_processed w <= total_processed (fst (fst (check_and_process w env))).
Proof.
  destruct (check_and_process_cases w env)
    as [[-> _]|(log & n & a & wm & _ & Hn & _ & ->)]; simpl; repeat split; lia.
Qed.

Lemma loop_body_frame w env :
  iterations (fst (loop_body w env)) = iterations w + 1 /\
  detector (fst (loop_body w env)) = detector w /\
  total_processed w <= total_processed (fst (loop_body w env)).
Proof.
  unfold loop_body.
  pose proof (check_and_process_frame (count_iteration w) env) as H.
  destruct (check_and_process (count_iteration w) env) as [[w' log] p].
  exact H.
Qed.

(** X16: over any run of the loop the iteration counter grows by the
    number of turns started, the count of processed timestamps never
    decreases, and the detector the worker holds is never replaced. *)
Theorem loop_counters script : forall w,
  iterations (fst (fst (loop w script)))
    = iterations w + Z.of_nat (turns_started script) /\
  total_processed w <= total_processed (fst (fst (loop w script))) /\
  detector (fst (fst (loop w script))) = detector w.
Proof.
  induction script as [|[env|env s|s] rest IH]; intros w; simpl turns_started.
  - simpl. repeat split; lia.
  - simpl loop. destruct (loop_body_frame w env) as (H1 & H2 & H3).
    destruct (loop_body w env) as [w1 log1]. simpl in H1, H2, H3.
    destruct (IH w1) as (I1 & I2 & I3).
    destruct (loop w1 rest) as [[w2 log2] sg]. simpl in *.
    repeat split; try lia; congruence.
  - simpl loop. destruct (loop_body_frame w env) as (H1 & H2 & H3).
    destruct (loop_body w env) as [w1 log1]. simpl in *.
    repeat split; try lia; congruence.
  - simpl. repeat split; lia.
Qed.

Lemma process_log_kinds env det since x :
  In x (fst (process_new_anomalies env det since)) ->
  (exists batch st, x = Wrote batch st) \/ (exists e, x = LoggedError e) \/
  (exists k, x = Printed (DataFound k)) \/
  (exists k1 k2, x = Printed (DataConverted k1 k2)) \/
  (exists k1 k2, x = Printed (NoCommonVariables k1 k2)) \/
  (exists k1 k2, x = Printed (VariablesToAnalyse k1 k2)).
Proof.
  unfold process_new_anomalies.
  destruct (get_new_data_from_sql (input_at_process env) since) as [[df_long|]|e];
    simpl; try contradiction.
  destruct (available_vars det (convert_long_to_wide df_long)) as [|v vars].
  - simpl. intros [<-|[<-|[<-|[]]]]; eauto 12.
  - set (d := detect_and_write _ _ _ _ _ _).
    pose proof (detect_and_write_log env det df_long (convert_long_to_wide df_long)
                  (v :: vars)
                  (Z.of_nat (nunique_datetime (convert_long_to_wide df_long)))) as L.
    fold d in L. destruct d as [log3 [r|e]]; simpl in *.
    + intros [<-|[<-|[<-|H]]]; eauto 12.
    + intros [<-|[<-|[<-|H]]]; eauto 12.
      apply in_app_or in H as [H|[<-|[]]]; eauto 12.
Qed.

Lemma check_and_process_no_statistics w env p a :
  ~ In (Printed (Statistics p a)) (snd (fst (check_and_process w env))).
Proof.
  intros H. apply check_and_process_log in H as [H|[(e & H)|(n & b & t & H)]];
    try discriminate.
  apply process_log_kinds in H
    as [(? & ? & H)|[(? & H)|[(? & H)|[(? & ? & H)|[(? & ? & H)|(? & ? & H)]]]]];
    discriminate.
Qed.

(** X17: a turn of the loop prints the statistics line exactly when its
    number is a multiple of ten, whatever its cycle did, and the line
    reports the two counters as they are after that cycle. *)
Theorem statistics_every_tenth_turn w env p a :
  In (Printed (Statistics p a)) (snd (loop_body w env)) <->
  (iterations w + 1) mod 10 = 0 /\
  p = total_processed (fst (loop_body w env)) /\
  a = total_anomalies (fst (loop_body w env)).
Proof.
  unfold loop_body.
  pose proof (check_and_process_no_statistics (count_iteration w) env p a) as N.
  pose proof (check_and_process_frame (count_iteration w) env) as (Hi & _ & _).
  destruct (check_and_process (count_iteration w) env) as [[w' log] pr].
  simpl in *. rewrite Hi. split.
  - intros H. apply in_app_or in H as [H|H]; [contradiction|].
    apply in_app_or in H as [H|H]; [destruct pr; simpl in H; intuition discriminate|].
    apply in_app_or in H as [H|H]; [|simpl in H; intuition discriminate].
    destruct (Z.eqb_spec ((iterations w + 1) mod 10) 0); [|contradiction].
    destruct H as [[= -> ->]|[]]. auto.
  - intros (Hm & -> & ->). apply in_or_app. right. apply in_or_app. right.
    apply in_or_app. left. rewrite Hm. simpl. now left.
Qed.

(* ================================================================== *)
(** ** Starting the worker *)



(** X19: a worker that entered the loop starts from the last processed
    timestamp of the result table when there is one, and from 24 hours
    before the current time when there is none, with all counters at
    zero; whatever the run then does, its watermark is never below that
    starting point. *)
Theorem run_starts_from_the_last_result init script w :
  final_worker (run init script) = Some w ->
  exists w0,
    initialize init = InitOk w0 /\
    (last_ds init = Ok (Some (last_processed_datetime w0)) \/
     (last_ds init = Ok None /\
      last_processed_datetime w0 = now init - 24 * 3600 * 1000000)) /\
    total_processed w0 = 0 /\ total_anomalies w0 = 0 /\ iterations w0 = 0 /\
    last_processed_datetime w0 <= last_processed_datetime w.
Proof.
  unfold run. destruct (initialize init) as [w0|conn] eqn:I; [|discriminate].
  intros H. exists w0. split; [reflexivity|].
  assert (Hw0 : (last_ds init = Ok (Some (last_processed_datetime w0)) \/
                 (last_ds init = Ok None /\
                  last_processed_datetime w0 = now init - 24 * 3600 * 1000000)) /\
                total_processed w0 = 0 /\ total_anomalies w0 = 0 /\ iterations w0 = 0).
  { unfold initialize in I.
    destruct (models_on_disk init); simpl in I; [|discriminate].
    destruct (connect init); simpl in I; [|discriminate].
    destruct (bootstrap init); [|discriminate].
    destruct (last_ds init) as [[t|]|e]; inversion I; subst; simpl; auto. }
  destruct Hw0 as (H1 & H2 & H3 & H4). repeat split; auto.
  pose proof (loop_monotone script w0) as M.
  destruct (loop w0 script) as [[w1 log] [s|]]; simpl in *.
  - unfold finally_clause in H. destruct (sql_conn w1); simpl in H;
      inversion H; subst; simpl; exact M.
  - inversion H; subst. exact M.
Qed.

Lemma run_starts_from_the_last_result_witness :
  exists w0, initialize sample_init = InitOk w0 /\
             last_processed_datetime w0 = 100000000000 - 24 * 3600 * 1000000.
Proof.
  destruct (run_starts_from_the_last_result sample_init [] _ eq_refl)
    as (w0 & I & [H|[_ H]] & _).
  - discriminate.
  - exists w0. split; [exact I | exact H].
Defined.

(* ================================================================== *)
(** ** The batch script *)

Lemma select_range_in tbl start_date end_date e :
  In e (select_range tbl start_date end_date) <->
  exists e0, In e0 tbl /\ e = drop_source e0 /\
             from_bound start_date (datetime e0) = true /\
             to_bound end_date (datetime e0) = true.
Proof.
  unfold select_range. rewrite sort_values_In, filter_In, in_map_iff, andb_true_iff.
  split.
  - intros [(e0 & <- & Hin) [H1 H2]]. exists e0. auto.
  - intros (e0 & Hin & -> & H1 & H2). split; [now exists e0 | auto].
Qed.

(** X20: the frame that [read_data_from_sql] returns has a row for a
    timestamp exactly when the input table has a row of that timestamp
    with a non-null value inside the requested range, both bounds
    included; a bound that is not given does not restrict. *)
Theorem read_range_is_inclusive tbl start_date end_date w :
  read_data_from_sql (Table tbl) start_date end_date = Ok (Some w) ->
  forall t,
    In t (DATETIME w) <->
    exists e, In e tbl /\ datetime e = t /\ notna (value e) = true /\
              (forall s, start_date = Some s -> s <= t) /\
              (forall s, end_date = Some s -> t <= s).
Proof.
  simpl. destruct (select_range tbl start_date end_date) as [|r rows] eqn:E;
    [discriminate|].
  intros [= <-] t. rewrite <- E. rewrite wide_index_events. split.
  - intros (e & Hin & <- & Hx). apply select_range_in in Hin as (e0 & Hin & -> & H1 & H2).
    exists e0. simpl in *. repeat split; auto.
    + intros s ->. simpl in H1. now apply Z.leb_le.
    + intros s ->. simpl in H2. now apply Z.leb_le.
  - intros (e & Hin & <- & Hx & H1 & H2). exists (drop_source e).
    split; [|split; [reflexivity | exact Hx]].
    apply select_range_in. exists e. repeat split; auto.
    + destruct start_date as [s|]; simpl; [apply Z.leb_le; auto | reflexivity].
    + destruct end_date as [s|]; simpl; [apply Z.leb_le; auto | reflexivity].
Qed.

Lemma read_range_is_inclusive_witness :
  In 10000000
     (DATETIME (convert_long_to_wide (select_range sample_table (Some 10000000) (Some 20000000)))).
Proof.
  apply (proj2 (read_range_is_inclusive sample_table (Some 10000000) (Some 20000000)
                  _ eq_refl 10000000)).
  exists (mkEvent 10000000 "A" (Fin 10) (Some "f1")).
  repeat split; try (simpl; auto; fail); intros s [= <-]; lia.
Defined.

Lemma batch_body_log env x :
  In x (fst (batch_body env)) -> exists batch st, x = Wrote batch st.
Proof.
  unfold batch_body.
  destruct (b_create_table env); simpl; try contradiction.
  destruct (b_load_models env) as [det|]; simpl; try contradiction.
  destruct (read_data_from_sql (b_input env) None None) as [[df|]|]; simpl;
    try contradiction.
  destruct (available_vars det df); simpl; try contradiction.
  destruct (detect_anomalies_multiple det df _) as [[results|]|]; simpl;
    try contradiction.
  destruct (prepare_batch_results results) as [r|]; simpl; try contradiction.
  intros [<-|[]]. eauto.
Qed.

(** X21: the batch script closes the connection on every path once the
    connection is established: whether it returns early, writes, or is
    left by an exception, the disconnect is the last thing it does and
    everything before it is a write; when the models are missing or the
    connection fails it does nothing at all. *)
Theorem batch_always_disconnects env :
  (b_models_on_disk env && b_connect env = true ->
     exists log, fst (detect_from_sql_main env) = log ++ [Disconnected] /\
                 forall x, In x log -> exists batch st, x = Wrote batch st) /\
  (b_models_on_disk env && b_connect env = false ->
     detect_from_sql_main env = ([], None)).
Proof.
  unfold detect_from_sql_main. split.
  - intros H. apply andb_prop in H as [-> ->]. simpl.
    pose proof (batch_body_log env) as L.
    destruct (batch_body env) as [log r]. simpl in *. eauto.
  - intros H. destruct (b_models_on_disk env); simpl in *; [|reflexivity].
    now rewrite H.
Qed.

Lemma get_rename_other old new col df :
  col <> old -> col <> new -> get_col col (rename_col old new df) = get_col col df.
Proof.
  intros H1 H2. induction df as [|[l c] rest IH]; simpl; [reflexivity|].
  destruct (String.eqb_spec l old) as [->|Hne].
  - destruct (String.eqb_spec col new); [contradiction|].
    destruct (String.eqb_spec col old); [contradiction|]. exact IH.
  - destruct (String.eqb col l); [reflexivity | exact IH].
Qed.

Lemma convert_bool_cols_other r r' col :
  convert_bool_cols bool_cols r = Ok r' -> ~ In col bool_cols ->
  get_col col r' = get_col col r.
Proof.
  unfold bool_cols. simpl. intros H Hnot.
  destruct (update_col "outside_interval" astype_int r) as [r1|] eqn:U1;
    simpl in H; [|discriminate].
  destruct (update_col "high_residual" astype_int r1) as [r2|] eqn:U2;
    simpl in H; [|discriminate].
  destruct (update_col "is_anomaly" astype_int r2) as [r3|] eqn:U3;
    simpl in H; [|discriminate].
  inversion H; subst r'.
  rewrite (update_col_other _ _ _ _ _ U3), (update_col_other _ _ _ _ _ U2),
    (update_col_other _ _ _ _ _ U1); auto; intros E; apply Hnot; rewrite <- E;
    simpl; auto.
Qed.

Lemma convert_bool_cols_present r r' col :
  convert_bool_cols bool_cols r = Ok r' ->
  get_col col r' <> None -> get_col col r <> None.
Proof.
  unfold bool_cols. simpl. intros H.
  destruct (update_col "outside_interval" astype_int r) as [r1|] eqn:U1;
    simpl in H; [|discriminate].
  destruct (update_col "high_residual" astype_int r1) as [r2|] eqn:U2;
    simpl in H; [|discriminate].
  destruct (update_col "is_anomaly" astype_int r2) as [r3|] eqn:U3;
    simpl in H; [|discriminate].
  inversion H; subst r'.
  rewrite <- !has_col_get, !has_col_in.
  now rewrite (update_col_labels _ _ _ _ U3), (update_col_labels _ _ _ _ U2),
    (update_col_labels _ _ _ _ U1).
Qed.

(** What a write of the batch script was made from. *)
Lemma batch_write_inv env batch st :
  In (Wrote batch st) (fst (detect_from_sql_main env)) ->
  exists det df results r,
    b_load_models env = Ok det /\
    read_data_from_sql (b_input env) None None = Ok (Some df) /\
    detect_anomalies_multiple det df (available_vars det df) = Ok (Some results) /\
    prepare_batch_results results = Ok r /\
    batch = select_columns r /\
    fst (detect_from_sql_main env) = [Wrote batch st; Disconnected].
Proof.
  unfold detect_from_sql_main.
  destruct (b_models_on_disk env); simpl; [|contradiction].
  destruct (b_connect env); simpl; [|contradiction].
  unfold batch_body.
  destruct (b_create_table env); simpl; [|intros [H|[]]; discriminate].
  destruct (b_load_models env) as [det|]; simpl; [|intros [H|[]]; discriminate].
  destruct (read_data_from_sql (b_input env) None None) as [[df|]|]; simpl;
    try (intros [H|[]]; discriminate).
  destruct (available_vars det df) as [|v vars] eqn:V; simpl;
    [intros [H|[]]; discriminate|].
  destruct (detect_anomalies_multiple det df (v :: vars)) as [[results|]|] eqn:D;
    simpl; try (intros [H|[]]; discriminate).
  destruct (prepare_batch_results results) as [r|] eqn:P; simpl;
    [|intros [H|[]]; discriminate].
  intros [H|[H|[]]]; [|discriminate]. inversion H; subst.
  exists det, df, results, r. rewrite V. repeat split; auto.
Qed.

(** X22: whatever the batch script writes is the detector's output with
    its two scores untouched: [anomaly_score] and [prediction_error_pct]
    are written as the detector returned them, neither null-filled nor
    clamped; the script writes only when the output has an [is_anomaly]
    column, and it writes once. *)
Theorem batch_writes_scores_unclamped env batch st :
  In (Wrote batch st) (fst (detect_from_sql_main env)) ->
  exists det df results,
    b_load_models env = Ok det /\
    read_data_from_sql (b_input env) None None = Ok (Some df) /\
    detect_anomalies_multiple det df (available_vars det df) = Ok (Some results) /\
    get_col "anomaly_score" batch = get_col "anomaly_score" results /\
    get_col "prediction_error_pct" batch = get_col "prediction_error_pct" results /\
    has_col "is_anomaly" results = true /\
    fst (detect_from_sql_main env) = [Wrote batch st; Disconnected].
Proof.
  intros H. destruct (batch_write_inv _ _ _ H)
    as (det & df & results & r & Hl & Hr & Hd & Hp & -> & Hlog).
  exists det, df, results. repeat split; auto.
  all: unfold prepare_batch_results in Hp;
    set (r1 := if has_col "source_file" results then results
               else set_col "source_file"
                      (ObjectCol (repeat (Some "sql_datos_proceso") (len results)))
                      results) in Hp;
    destruct (convert_bool_cols bool_cols r1) as [r2|] eqn:C; simpl in Hp;
      [|discriminate];
    set (r3 := if negb (has_col "ds" r2) && has_col "DATETIME" r2
               then rename_col "DATETIME" "ds" r2 else r2) in Hp;
    destruct (sum_is_anomaly r3) as [k|] eqn:S; simpl in Hp; [|discriminate];
    inversion Hp; subst r.
  1,2: match goal with
       | |- get_col ?col _ = _ =>
           assert (G : get_col col r3 = get_col col results);
           [ assert (G3 : get_col col r3 = get_col col r2)
               by (subst r3; destruct (negb _ && _);
                   [apply get_rename_other; discriminate | reflexivity]);
             rewrite G3, (convert_bool_cols_other _ _ col C)
               by (unfold bool_cols; simpl; intuition discriminate);
             subst r1; destruct (has_col "source_file" results);
               [reflexivity | apply get_set_other; discriminate]
           | destruct (get_col col results) as [c|] eqn:Gr;
             [ apply select_from_find; [simpl; auto 15 | congruence]
             | destruct (get_col col (select_columns r3)) as [c|] eqn:Gs;
               [apply select_from_get in Gs as [_ Gs]; congruence | reflexivity] ] ]
       end.
  apply has_col_get.
  assert (G3 : get_col "is_anomaly" r3 <> None)
    by (unfold sum_is_anomaly in S; destruct (get_col "is_anomaly" r3);
        [discriminate | discriminate]).
  assert (G2 : get_col "is_anomaly" r2 <> None).
  { subst r3. destruct (negb _ && _); [|exact G3].
    now rewrite get_rename_other in G3 by discriminate. }
  apply (convert_bool_cols_present _ _ _ C) in G2.
  subst r1. destruct (has_col "source_file" results); [exact G2|].
  now rewrite get_set_other in G2 by discriminate.
Qed.

Lemma batch_writes_scores_unclamped_witness :
  exists batch st,
    In (Wrote batch st) (fst (detect_from_sql_main sample_batch)) /\
    get_col "anomaly_score" batch = Some (FloatCol [Fin 5000; NaN; Fin 3]).
Proof.
  exists (select_columns
            (match prepare_batch_results sample_results with
             | Ok r => r
             | Raise _ => []
             end)), (Ok true).
  assert (H : In (Wrote (select_columns
                           (match prepare_batch_results sample_results with
                            | Ok r => r
                            | Raise _ => []
                            end)) (Ok true))
                 (fst (detect_from_sql_main sample_batch)))
    by (left; reflexivity).
  split; [exact H|].
  destruct (batch_writes_scores_unclamped sample_batch _ _ H)
    as (det & df & results & Hl & _ & Hd & Hs & _).
  injection Hl as <-. injection Hd as <-. rewrite Hs. reflexivity.
Defined.

(** X23: the source the batch script writes. When the detector's output
    has no [source_file] column, every written row carries the fixed
    name [sql_datos_proceso]; when it has one, that column is written as
    it is. The source files of the input rows play no part. *)
Theorem batch_source_file env batch st :
  In (Wrote batch st) (fst (detect_from_sql_main env)) ->
  exists det df results,
    b_load_models env = Ok det /\
    read_data_from_sql (b_input env) None None = Ok (Some df) /\
    detect_anomalies_multiple det df (available_vars det df) = Ok (Some results) /\
    get_col "source_file" batch =
      if has_col "source_file" results
      then get_col "source_file" results
      else Some (ObjectCol (repeat (Some "sql_datos_proceso") (len results))).
Proof.
  intros H. destruct (batch_write_inv _ _ _ H)
    as (det & df & results & r & Hl & Hr & Hd & Hp & -> & Hlog).
  exists det, df, results. repeat split; auto.
  unfold prepare_batch_results in Hp.
  set (r1 := if has_col "source_file" results then results
             else set_col "source_file"
                    (ObjectCol (repeat (Some "sql_datos_proceso") (len results)))
                    results) in Hp.
  destruct (convert_bool_cols bool_cols r1) as [r2|] eqn:C; simpl in Hp;
    [|discriminate].
  set (r3 := if negb (has_col "ds" r2) && has_col "DATETIME" r2
             then rename_col "DATETIME" "ds" r2 else r2) in Hp.
  destruct (sum_is_anomaly r3) as [k|] eqn:S; simpl in Hp; [|discriminate].
  inversion Hp; subst r.
  assert (G : get_col "source_file" r3 = get_col "source_file" r1).
  { assert (G3 : get_col "source_file" r3 = get_col "source_file" r2)
      by (subst r3; destruct (negb _ && _);
          [apply get_rename_other; discriminate | reflexivity]).
    rewrite G3. apply (convert_bool_cols_other _ _ _ C).
    unfold bool_cols; simpl; intuition discriminate. }
  assert (G1 : exists c, get_col "source_file" r1 = Some c /\
                 Some c = if has_col "source_file" results
                          then get_col "source_file" results
                          else Some (ObjectCol (repeat (Some "sql_datos_proceso")
                                                       (len results)))).
  { subst r1. destruct (has_col "source_file" results) eqn:Hs.
    - apply has_col_get in Hs. destruct (get_col "source_file" results) as [c|];
        [eauto | congruence].
    - eexists. split; [apply get_set_same | reflexivity]. }
  destruct G1 as (c & G1 & <-).
  apply select_from_find; [simpl; auto 15 | congruence].
Qed.

Lemma batch_source_file_witness :
  exists batch st,
    In (Wrote batch st) (fst (detect_from_sql_main sample_batch)) /\
    get_col "source_file" batch =
      Some (ObjectCol [Some "sql_datos_proceso"; Some "sql_datos_proceso";
                       Some "sql_datos_proceso"]).
Proof.
  exists (select_columns
            (match prepare_batch_results sample_results with
             | Ok r => r
             | Raise _ => []
             end)), (Ok true).
  assert (H : In (Wrote (select_columns
                           (match prepare_batch_results sample_results with
                            | Ok r => r
                            | Raise _ => []
                            end)) (Ok true))
                 (fst (detect_from_sql_main sample_batch)))
    by (left; reflexivity).
  split; [exact H|].
  destruct (batch_source_file sample_batch _ _ H)
    as (det & df & results & Hl & _ & Hd & Hs).
  injection Hl as <-. injection Hd as <-. rewrite Hs. reflexivity.
Defined.

(* ================================================================== *)
(** ** Creating the indexes *)

Lemma index_exists_in idx c : index_exists idx c = true <-> In idx (indexes c).
Proof.
  unfold index_exists. rewrite existsb_exists. split.
  - intros (x & Hin & E). apply String.eqb_eq in E. now subst.
  - intros Hin. exists idx. split; [assumption | apply String.eqb_refl].
Qed.

Lemma ensure_index_keeps env c n idx :
  In idx (indexes c) -> In idx (indexes (ensure_index env c n)).
Proof.
  unfold ensure_index. intros H.
  destruct (check_raises env n); [assumption|].
  destruct (index_exists n c); [assumption|]. simpl.
  destruct (create_succeeds env n); simpl; auto.
Qed.

Lemma create_indexes_keeps env names c idx :
  In idx (indexes c) -> In idx (indexes (create_indexes env names c)).
Proof.
  unfold create_indexes. revert c.
  induction names as [|n names IH]; intros c H; simpl; [assumption|].
  apply IH, ensure_index_keeps, H.
Qed.

Lemma ensure_index_makes env c n :
  check_raises env n = false -> create_succeeds env n = true ->
  In n (indexes (ensure_index env c n)).
Proof.
  unfold ensure_index. intros -> Hc.
  destruct (index_exists n c) eqn:E; [now apply index_exists_in|].
  rewrite Hc. simpl. auto.
Qed.

Lemma ensure_index_origin env c n idx :
  In idx (indexes (ensure_index env c n)) -> In idx (indexes c) \/ idx = n.
Proof.
  unfold ensure_index.
  destruct (check_raises env n); [auto|].
  destruct (index_exists n c); [auto|]. simpl.
  destruct (create_succeeds env n); simpl; [|auto].
  intros [<-|H]; auto.
Qed.

Lemma ensure_index_issued env c n :
  exists new, issued (ensure_index env c n) = issued c ++ new /\
              forall idx, In idx new ->
                idx = n /\ ~ In idx (indexes c) /\ check_raises env idx = false.
Proof.
  unfold ensure_index.
  destruct (check_raises env n) eqn:R;
    [exists []; rewrite app_nil_r; split; [reflexivity | contradiction]|].
  destruct (index_exists n c) eqn:E;
    [exists []; rewrite app_nil_r; split; [reflexivity | contradiction]|].
  exists [n]. split; [reflexivity|]. intros idx [<-|[]].
  repeat split; auto. intros H. apply index_exists_in in H. congruence.
Qed.

(** X24: creating a table with its indexes. The function raises only
    when the creation of the table itself raises. In the loop over the
    indexes a failure is confined to its own index: every index whose
    lookup and statement succeed exists afterwards, whatever happened
    to the others; no existing index is lost; nothing but the listed
    names is added; and a [CREATE INDEX] is sent only for a name that
    was looked up and found missing when the function started. *)
Theorem index_bootstrap_confines_failures names tbl env c :
  (forall e, create_table_and_indexes names tbl env c = Raise e <-> tbl = Raise e) /\
  (forall idx, In idx (indexes c) -> In idx (indexes (create_indexes env names c))) /\
  (forall idx, In idx names -> check_raises env idx = false ->
               create_succeeds env idx = true ->
               In idx (indexes (create_indexes env names c))) /\
  (forall idx, In idx (indexes (create_indexes env names c)) ->
               In idx (indexes c) \/ In idx names) /\
  (exists new, issued (create_indexes env names c) = issued c ++ new /\
               forall idx, In idx new ->
                 In idx names /\ ~ In idx (indexes c) /\
                 check_raises env idx = false).
Proof.
  split; [|split; [|split; [|split]]].
  - intros e. unfold create_table_and_indexes. destruct tbl; simpl; split;
      congruence.
  - intros idx. apply create_indexes_keeps.
  - unfold create_indexes. revert c.
    induction names as [|n names IH]; intros c idx Hin Hr Hc; [contradiction|].
    simpl. destruct Hin as [->|Hin]; [|now apply IH].
    apply (create_indexes_keeps env names), ensure_index_makes; assumption.
  - unfold create_indexes. revert c.
    induction names as [|n names IH]; intros c idx H; simpl in *; [auto|].
    destruct (IH _ _ H) as [H1|H1]; [|auto].
    destruct (ensure_index_origin _ _ _ _ H1) as [H2| ->]; auto.
  - unfold create_indexes. revert c.
    induction names as [|n names IH]; intros c; simpl.
    + exists []. rewrite app_nil_r. split; [reflexivity | contradiction].
    + destruct (IH (ensure_index env c n)) as (new2 & E2 & H2).
      destruct (ensure_index_issued env c n) as (new1 & E1 & H1).
      exists (new1 ++ new2). rewrite E2, E1, app_assoc. split; [reflexivity|].
      intros idx Hin. apply in_app_or in Hin as [Hin|Hin].
      * destruct (H1 _ Hin) as (-> & Hn & Hr). auto.
      * destruct (H2 _ Hin) as (Hn & Hx & Hr). repeat split; auto.
        intros Hc. apply Hx, ensure_index_keeps, Hc.
Qed.

Lemma create_indexes_present env names c :
  (forall idx, In idx names -> In idx (indexes c)) ->
  create_indexes env names c = c.
Proof.
  unfold create_indexes. revert c.
  induction names as [|n names IH]; intros c H; simpl; [reflexivity|].
  assert (E : ensure_index env c n = c).
  { unfold ensure_index. destruct (check_raises env n); [reflexivity|].
    assert (Hn : index_exists n c = true) by (apply index_exists_in, H; simpl; auto).
    now rewrite Hn. }
  rewrite E. apply IH. intros idx Hin. apply H. simpl; auto.
Qed.

(** X25: the bootstrap is idempotent. After a run in which no lookup
    and no statement failed, a further run changes no index and sends
    no statement, also when lookups or statements fail during that
    further run. *)
Theorem index_bootstrap_idempotent names env env' c :
  (forall idx, In idx names ->
     check_raises env idx = false /\ create_succeeds env idx = true) ->
  create_indexes env' names (create_indexes env names c) =
  create_indexes env names c.
Proof.
  intros H. apply create_indexes_present. intros idx Hin.
  destruct (H _ Hin) as [Hr Hc]. clear H.
  unfold create_indexes. revert c.
  induction names as [|n names IH]; intros c; [contradiction|].
  simpl. destruct Hin as [->|Hin]; [|now apply IH].
  apply (create_indexes_keeps env names), ensure_index_makes; assumption.
Qed.

Lemma index_bootstrap_idempotent_witness :
  create_indexes (mkIndexEnv (fun _ => true) (fun _ => false))
    ["idx_ds"; "idx_variable"; "idx_is_anomaly"; "idx_processed_at"]
    (create_indexes healthy_server
       ["idx_ds"; "idx_variable"; "idx_is_anomaly"; "idx_processed_at"] bare_table) =
  create_indexes healthy_server
    ["idx_ds"; "idx_variable"; "idx_is_anomaly"; "idx_processed_at"] bare_table.
Proof.
  apply (index_bootstrap_idempotent
           ["idx_ds"; "idx_variable"; "idx_is_anomaly"; "idx_processed_at"]
           healthy_server).
  intros idx _. split; reflexivity.
Defined.

(* ================================================================== *)
(** ** Loading the training data *)




Lemma rows_accepted_app log1 log2 :
  rows_accepted (log1 ++ log2) = (rows_accepted log1 + rows_accepted log2)%nat.
Proof.
  induction log1 as [|[rows [[|]|e]|] log1 IH]; simpl; rewrite ?IH; lia.
Qed.

Lemma write_files_total env files total_rows log total :
  write_files env files total_rows = (log, Ok total) ->
  total = (total_rows + rows_accepted log)%nat /\
  List.length log = List.length files.
Proof.
  revert total_rows log. induction files as [|[stem [df|e]] rest IH];
    intros total_rows log; simpl.
  - intros [= <- <-]. simpl. split; [lia | reflexivity].
  - destruct (l_write env (transform_data_to_long_format df (Some stem)))
      as [b|e] eqn:W; [|discriminate].
    destruct (write_files env rest _) as [log' r] eqn:WF.
    intros [= <- ->]. destruct (IH _ _ WF) as [Ht Hl]. simpl.
    destruct b; simpl; split; lia.
  - discriminate.
Qed.

(** X27: the total that the loader's summary prints is the number of
    rows of the writes that returned true, and by then every file was
    written once. A write that returns false is not counted and does
    not stop the run. *)
Theorem load_total_counts_accepted_rows env log total :
  load_main env = (log, Ok (Some total)) ->
  total = rows_accepted log /\
  List.length log = S (List.length (cleaned_files env)).
Proof.
  unfold load_main. destruct (cleaned_files env) as [|f files] eqn:F;
    [discriminate|].
  destruct (l_connect env); cbn [negb]; cbv beta iota; [|discriminate].
  destruct (l_create_table env) as [u|e]; [|discriminate].
  destruct (write_files env (f :: files) 0) as [wlog r] eqn:WF.
  destruct r as [t|e]; [|discriminate]. intros [= <- <-].
  destruct (write_files_total _ _ _ _ _ WF) as [Ht Hl].
  rewrite rows_accepted_app, length_app, Hl. simpl. split; lia.
Qed.

Lemma load_total_counts_accepted_rows_witness :
  fst (load_main sample_load) =
    [WroteRows [mkEvent 1000000 "A" (Fin 1) (Some "a_cleaned")] (Ok true);
     WroteRows [mkEvent 3000000 "A" (Fin 2) (Some "b_cleaned");
                mkEvent 3000000 "B" (Fin 3) (Some "b_cleaned")] (Ok false);
     ClosedConnection] /\
  1%nat = rows_accepted (fst (load_main sample_load)).
Proof.
  split; [reflexivity|].
  apply (load_total_counts_accepted_rows sample_load _ 1%nat). reflexivity.
Defined.

(* ================================================================== *)
(** ** The configuration *)

Lemma lbind_loaded {A B} (m : loaded A) (k : A -> loaded B) b :
  lbind m k = Loaded b -> exists a, m = Loaded a /\ k a = Loaded b.
Proof. destruct m as [a|e]; simpl; [eauto | discriminate]. Qed.

Lemma subscript_loaded d k v :
  subscript d k = Loaded v -> exists m, d = YMap m /\ lookup k m = Some v.
Proof.
  destruct d as [| | | |m]; simpl; try discriminate.
  destruct (lookup k m) as [x|] eqn:L; [|discriminate].
  intros [= <-]. exists m. split; [reflexivity | exact L].
Qed.

(** The connection settings of a loaded configuration, and the ways its
    database can have been chosen. *)
Lemma get_sql_config_dict_loaded config_yaml database cfg :
  get_sql_config_dict config_yaml database = Loaded cfg ->
  exists doc db d,
    config_yaml = Some (YMap doc) /\ lookup "database" doc = Some (YMap db) /\
    map fst cfg = connection_keys ++ ["database"] /\
    (forall k, In k connection_keys -> lookup k cfg = lookup k db) /\
    lookup "database" cfg = Some d /\
    ((truthy database = true /\ d = database) \/
     (truthy database = false /\ lookup "database" db = Some d) \/
     (truthy database = false /\ lookup "database" db = None /\
      exists fl, lookup "flood_system" doc = Some (YMap fl) /\
                 d = match lookup "input_database" fl with
                     | Some v => v
                     | None => YStr "otms_main"
                     end)).
Proof.
  unfold get_sql_config_dict, get_database_config. intros H.
  apply lbind_loaded in H as (db_config & H0 & H).
  apply lbind_loaded in H0 as (config & Hf & Hd).
  destruct config_yaml as [c|]; simpl in Hf; [|discriminate].
  injection Hf as ->.
  apply subscript_loaded in Hd as (doc & -> & Hdb).
  apply lbind_loaded in H as (server & H1 & H).
  apply subscript_loaded in H1 as (db & -> & L1).
  apply lbind_loaded in H as (port & H2 & H).
  apply lbind_loaded in H as (username & H3 & H).
  apply lbind_loaded in H as (password & H4 & H).
  apply lbind_loaded in H as (driver & H5 & H).
  apply lbind_loaded in H as (schema & H6 & H).
  simpl in H2, H3, H4, H5, H6.
  destruct (lookup "port" db) as [x2|] eqn:L2; [injection H2 as -> | discriminate].
  destruct (lookup "username" db) as [x3|] eqn:L3; [injection H3 as -> | discriminate].
  destruct (lookup "password" db) as [x4|] eqn:L4; [injection H4 as -> | discriminate].
  destruct (lookup "driver" db) as [x5|] eqn:L5; [injection H5 as -> | discriminate].
  destruct (lookup "schema" db) as [x6|] eqn:L6; [injection H6 as -> | discriminate].
  assert (K : forall d,
             cfg = [("server", server); ("port", port); ("username", username);
                    ("password", password); ("driver", driver); ("schema", schema)]
                   ++ [("database", d)] ->
             map fst cfg = connection_keys ++ ["database"] /\
             (forall k, In k connection_keys -> lookup k cfg = lookup k db) /\
             lookup "database" cfg = Some d).
  { intros d ->. split; [reflexivity|]. split; [|reflexivity].
    intros k Hk. simpl in Hk.
    destruct Hk as [<-|[<-|[<-|[<-|[<-|[<-|[]]]]]]]; cbn; congruence. }
  exists doc, db.
  destruct (truthy database) eqn:T.
  - injection H as <-. exists database.
    destruct (K database eq_refl) as (K1 & K2 & K3). repeat split; auto.
  - apply lbind_loaded in H as (has_database & Hc & H). simpl in Hc.
    injection Hc as <-.
    destruct (lookup "database" db) as [v|] eqn:Ld.
    + apply lbind_loaded in H as (d & Hs & H). simpl in Hs. rewrite Ld in Hs.
      injection Hs as ->. injection H as <-. exists d.
      destruct (K d eq_refl) as (K1 & K2 & K3). repeat split; auto.
    + apply lbind_loaded in H as (flood_config & Hfl & H).
      apply lbind_loaded in H as (d & Hg & H). injection H as <-.
      unfold get_flood_config in Hfl. cbn [load_config lbind] in Hfl.
      apply subscript_loaded in Hfl as (doc' & [= <-] & Lf).
      destruct flood_config as [| | | |fl]; simpl in Hg; try discriminate.
      injection Hg as <-. eexists.
      destruct (K _ eq_refl) as (K1 & K2 & K3).
      split; [reflexivity|]. split; [exact Hdb|]. split; [exact K1|].
      split; [exact K2|]. split; [exact K3|].
      right. right. repeat split. exists fl. split; [exact Lf | reflexivity].
Qed.

(** X28: how [get_sql_config_dict] chooses the database. A loaded
    configuration has exactly the six connection settings of the
    database section, copied unchanged, and a database. A database
    given by the caller, when it is not empty, is the one used; else the
    [database] entry of the database section is used whenever the entry
    exists, also when its value is null or empty; only when the entry
    does not exist does the flood section decide, with [otms_main] for
    a flood section that names no input database. *)
Theorem sql_config_database_precedence config_yaml database cfg :
  get_sql_config_dict config_yaml database = Loaded cfg ->
  exists doc db,
    config_yaml = Some (YMap doc) /\ lookup "database" doc = Some (YMap db) /\
    map fst cfg = connection_keys ++ ["database"] /\
    (forall k, In k connection_keys ->
               lookup k cfg = lookup k db /\ lookup k cfg <> None) /\
    (truthy database = true -> lookup "database" cfg = Some database) /\
    (truthy database = false ->
       forall v, lookup "database" db = Some v -> lookup "database" cfg = Some v) /\
    (truthy database = false -> lookup "database" db = None ->
       exists fl, lookup "flood_system" doc = Some (YMap fl) /\
                  lookup "database" cfg =
                    Some (match lookup "input_database" fl with
                          | Some v => v
                          | None => YStr "otms_main"
                          end)).
Proof.
  intros H. destruct (get_sql_config_dict_loaded _ _ _ H)
    as (doc & db & d & Hf & Hdb & Hk & Hc & Hd & Hcase).
  exists doc, db. split; [exact Hf|]. split; [exact Hdb|]. split; [exact Hk|].
  split.
  - intros k Hin. split; [now apply Hc|].
    assert (Hin' : In k (map fst cfg)) by (rewrite Hk; apply in_or_app; auto).
    clear - Hin'. unfold lookup. induction cfg as [|[k0 v0] rest IH]; simpl in *.
    + contradiction.
    + destruct (String.eqb_spec k0 k) as [->|Hne]; simpl; [discriminate|].
      destruct Hin' as [E|Hin']; [contradiction | now apply IH].
  - rewrite Hd. split; [|split].
    + intros T. destruct Hcase as [[_ ->]|[[T' _]|[T' _]]]; congruence.
    + intros T v Hv. destruct Hcase as [[T' _]|[[_ Hv']|[_ [Hv' _]]]]; congruence.
    + intros T Hn. destruct Hcase as [[T' _]|[[_ Hv']|[_ [_ (fl & Hfl & ->)]]]];
        try congruence. exists fl. auto.
Qed.

Lemma sql_config_database_precedence_witness :
  lookup "database"
    (match get_sql_config_dict (Some sample_config) (YStr "") with
     | Loaded cfg => cfg
     | Failed _ => []
     end) = Some (YStr "plant_db").
Proof.
  destruct (sql_config_database_precedence (Some sample_config) (YStr "") _ eq_refl)
    as (doc & db & Hf & Hdb & _ & _ & _ & Hv & _).
  injection Hf as <-. injection Hdb as <-.
  apply (Hv eq_refl). reflexivity.
Defined.

(** X29: the database the scripts connect to. When the anomaly section
    has no [input_database] entry the scripts use [otms_main], whatever
    the database section and the flood section say; an entry that is
    not empty is used as it is; the [database] entry of the database
    section is used only behind an [input_database] entry that is
    present and empty. *)
Theorem scripts_database_choice config_yaml cfg :
  SQL_CONFIG config_yaml = Loaded cfg ->
  exists doc an db,
    config_yaml = Some (YMap doc) /\
    lookup "anomaly_system" doc = Some (YMap an) /\
    lookup "database" doc = Some (YMap db) /\
    (lookup "input_database" an = None ->
       lookup "database" cfg = Some (YStr "otms_main")) /\
    (forall v, lookup "input_database" an = Some v -> truthy v = true ->
       lookup "database" cfg = Some v) /\
    (forall v d, lookup "input_database" an = Some v -> truthy v = false ->
       lookup "database" db = Some d -> lookup "database" cfg = Some d).
Proof.
  unfold SQL_CONFIG, get_anomaly_config. intros H.
  apply lbind_loaded in H as (anomaly_config & H0 & H).
  apply lbind_loaded in H0 as (config & Hf & Ha).
  destruct config_yaml as [c|]; simpl in Hf; [|discriminate].
  injection Hf as ->.
  apply subscript_loaded in Ha as (doc & -> & La).
  apply lbind_loaded in H as (database & Hg & H).
  destruct anomaly_config as [| | | |an]; simpl in Hg; try discriminate.
  injection Hg as <-.
  destruct (get_sql_config_dict_loaded _ _ _ H)
    as (doc' & db & d & [= <-] & Hdb & _ & _ & Hd & Hcase).
  exists doc, an, db. rewrite Hd. repeat split; auto.
  - intros Hn. rewrite Hn in Hcase. simpl in Hcase.
    destruct Hcase as [[_ ->]|[[T _]|[T _]]]; [reflexivity | discriminate..].
  - intros v Hv T. rewrite Hv in Hcase.
    destruct Hcase as [[_ ->]|[[T' _]|[T' _]]]; [reflexivity | congruence..].
  - intros v d' Hv T Hd'. rewrite Hv in Hcase.
    destruct Hcase as [[T' _]|[[_ Hx]|[_ [Hx _]]]]; congruence.
Qed.

Lemma scripts_database_choice_witness :
  lookup "database"
    (match SQL_CONFIG (Some sample_config) with
     | Loaded cfg => cfg
     | Failed _ => []
     end) = Some (YStr "otms_main").
Proof.
  destruct (scripts_database_choice (Some sample_config) _ eq_refl)
    as (doc & an & db & Hf & Han & _ & Hn & _).
  injection Hf as <-. injection Han as <-.
  apply Hn. reflexivity.
Defined.
